(** * Retention reconciliation of the audio-file records

    A shallow embedding of the two reconciliation scripts of the repository,

    - [audiodeletefiles.py]            (class [DeleteLastFiveAudioFiles], "Policy A"),
    - [updatedcompareanddeletefile.py] (class [ProcessAudioFiles], "Policy B"),

    and the properties of the retention specification that concern them.

    The scripts are imperative: they read a CSV file, talk to the remote
    media store, log, and write a CSV file, with Python exceptions caught by
    [try]/[except] blocks.  They are embedded in a state-and-exception monad
    over a [World] (file system, remote store, clock reads, journal of
    effects); every effect is appended to the journal in program order.

    A CSV file is held as the list of rows that [csv.reader] yields from it
    and [csv.writer] writes to it; the text of the file, the credentials
    prompt and the logging configuration are outside the embedding. *)

From Stdlib Require Import ZArith List String Ascii Bool Lia.
From Stdlib Require Import DecimalString.
From stdpp Require Import base option list strings gmap.

Open Scope string_scope.
Open Scope list_scope.
Open Scope Z_scope.

(** ** Python values used by the scripts *)

(** A row as [csv.reader] yields it and [csv.writer] takes it. *)
Abbreviation row := (list string).

(** The exceptions that the modelled statements can raise. *)
Inductive exn : Type :=
| IndexError                            (* list index out of range *)
| ValueError (msg : string)             (* datetime.strptime on a bad string *)
| OverflowError                         (* datetime - timedelta out of range *)
| FileNotFoundError (path : string)     (* open(path, "r") on a missing file *)
| CloudinaryError (msg : string).       (* cloudinary.exceptions.Error *)

(** [str(e)] as interpolated into the log messages. *)
Definition exn_str (e : exn) : string :=
  match e with
  | IndexError => "list index out of range"
  | ValueError msg => msg
  | OverflowError => "date value out of range"
  | FileNotFoundError path => "No such file or directory: '" +:+ path +:+ "'"
  | CloudinaryError msg => msg
  end.

(** [except cloudinary.exceptions.Error] catches only the last constructor;
    [except Exception] catches all of them. *)
Definition is_cloudinary_error (e : exn) : bool :=
  match e with CloudinaryError _ => true | _ => false end.

Definition is_Exception (e : exn) : bool := true.

(** *** Slices

    [l[start:]] and [l[:stop]] with Python's treatment of negative and
    out-of-range bounds: a negative bound counts from the end, and the
    result is clamped to the list. *)
Section Slices.
Context {A : Type}.

Definition clamp_index (i : Z) (l : list A) : nat :=
  let n := Z.of_nat (length l) in
  Z.to_nat (if i <? 0 then Z.max (i + n) 0 else Z.min i n).

Definition slice_from (start : Z) (l : list A) : list A :=
  drop (clamp_index start l) l.

Definition slice_to (stop : Z) (l : list A) : list A :=
  take (clamp_index stop l) l.
End Slices.

(** *** Dictionaries

    A [dict] literal keeps its insertion order; [d.values()] lists the
    values in that order and [x in d.values()] scans them with [==]. *)
Definition dict_values {K V : Type} (d : list (K * V)) : list V := map snd d.

Definition str_in (x : string) (l : list string) : bool :=
  existsb (String.eqb x) l.

(** [d.get(k)] on a dictionary with string keys. *)
Fixpoint dict_get {V : Type} (d : list (string * V)) (k : string) : option V :=
  match d with
  | [] => None
  | (k', v) :: d' => if String.eqb k k' then Some v else dict_get d' k
  end.

(** ** Tail-5 partition (Policy A) *)

Definition files_to_delete_of (audio_details : list row) : list row :=
  slice_from (-5) audio_details.

Definition remaining_files_of (audio_details : list row) : list row :=
  slice_to (-5) audio_details.

(** ** The collaborators of the scripts

    What the scripts obtain from outside the repository: the remote media
    store behind [cloudinary.api.delete_resources], the parser
    [datetime.strptime] at the scripts' format ["%Y-%m-%d %H:%M:%S"], the
    wall clock behind [datetime.now()], and the file system's resolution of
    a path to the file it names. *)

(** The outcome of one call of [cloudinary.api.delete_resources]: either
    the response dictionary (a mapping from keys such as ["deleted"] to
    dictionaries from public id to status), or a raised
    [cloudinary.exceptions.Error]. *)
Inductive api_reply : Type :=
| Response (body : list (string * list (string * string)))
| Raises (msg : string).

Class Runtime : Type := {
  Remote : Type;
  (** [delete_resources public_ids resource_type] against the store. *)
  delete_resources : list string -> string -> Remote -> Remote * api_reply;
  (** [datetime.strptime(s, "%Y-%m-%d %H:%M:%S")]: the instant in
      microseconds from 0001-01-01 00:00:00, or the message of the
      [ValueError] raised. *)
  strptime : string -> string + Z;
  (** The value of the [k]-th call of [datetime.now()], same unit. *)
  clock : nat -> Z;
  (** The file that a path names. *)
  realpath : string -> string;
}.

(** [timedelta(days=30)], in microseconds. *)
Definition timedelta_days (d : Z) : Z := d * 86400 * 1000000.

(** ** Effects *)

Inductive level : Type := INFO | WARNING | ERROR.

Inductive event : Type :=
| EvLog (lvl : level) (msg : string)
| EvDelete (public_ids : list string) (resource_type : string)
| EvOpenW (file : string)
| EvWriteRow (file : string) (r : row).

Definition is_delete (e : event) : bool :=
  match e with EvDelete _ _ => true | _ => false end.

Definition is_write (e : event) : bool :=
  match e with EvOpenW _ | EvWriteRow _ _ => true | _ => false end.

(** The files a write event touches. *)
Definition written_file (e : event) : option string :=
  match e with
  | EvOpenW f | EvWriteRow f _ => Some f
  | _ => None
  end.

(** The effect of one event on the file system: opening for writing
    creates or truncates the file, writing a row appends it. *)
Definition apply_event (fs : gmap string (list row)) (e : event)
  : gmap string (list row) :=
  match e with
  | EvOpenW f => <[f := []]> fs
  | EvWriteRow f r => alter (fun rows => rows ++ [r]) f fs
  | _ => fs
  end.

(** The file system after the effects [evs], in order. *)
Definition replay (evs : list event) (fs : gmap string (list row))
  : gmap string (list row) :=
  fold_left apply_event evs fs.

Section Monad.
Context `{RT : Runtime}.

Record World : Type := mkWorld {
  files : gmap string (list row);   (* file, by [realpath], to its rows *)
  remote : Remote;                  (* the remote media store *)
  ticks : nat;                      (* calls of [datetime.now()] so far *)
  journal : list event;             (* effects so far, oldest first *)
}.

(** A statement: from a world to the world after it, with the exception
    it raised or the value it produced. *)
Definition M (A : Type) : Type := World -> World * (exn + A).

#[export] Instance M_ret : MRet M := fun A a w => (w, inr a).

#[export] Instance M_bind : MBind M := fun A B k m w =>
  match m w with
  | (w', inr a) => k a w'
  | (w', inl e) => (w', inl e)
  end.

Definition raise {A} (e : exn) : M A := fun w => (w, inl e).

(** [try: body except <class> as e: handler e], where [catches] tells
    whether an exception is of the class. *)
Definition try_except {A} (body : M A) (catches : exn -> bool)
    (handler : exn -> M A) : M A := fun w =>
  match body w with
  | (w', inl e) => if catches e then handler e w' else (w', inl e)
  | r => r
  end.

(** [for x in l: body x] *)
Fixpoint for_each {A} (l : list A) (body : A -> M unit) : M unit :=
  match l with
  | [] => mret tt
  | x :: l' => body x ;; for_each l' body
  end.

(** [for x in l: acc = body acc x], for a loop that updates local
    variables [acc]. *)
Fixpoint for_fold {A S} (l : list A) (body : S -> A -> M S) (acc : S) : M S :=
  match l with
  | [] => mret acc
  | x :: l' => acc' ← body acc x; for_fold l' body acc'
  end.

Definition emit (e : event) (w : World) : World :=
  mkWorld (apply_event (files w) e) (remote w) (ticks w) (journal w ++ [e]).

(** [self.logger.<lvl>(msg)] *)
Definition log (lvl : level) (msg : string) : M unit :=
  fun w => (emit (EvLog lvl msg) w, inr tt).

(** [l[i]] for a non-negative literal [i]. *)
Definition index {A} (l : list A) (i : nat) : M A :=
  match l !! i with
  | Some x => mret x
  | None => raise IndexError
  end.

(** [os.path.exists(path)] *)
Definition os_path_exists (path : string) : M bool :=
  fun w => (w, inr (bool_decide (is_Some (files w !! realpath path)))).

(** [with open(path, mode="r") as f: list(csv.reader(f))] *)
Definition read_csv (path : string) : M (list row) := fun w =>
  match files w !! realpath path with
  | Some rows => (w, inr rows)
  | None => (w, inl (FileNotFoundError path))
  end.

(** [open(path, mode="w")]: the handle is the file opened. *)
Definition open_w (path : string) : M string :=
  fun w => (emit (EvOpenW (realpath path)) w, inr (realpath path)).

(** [csv.writer(f).writerow(r)] *)
Definition writerow (f : string) (r : row) : M unit :=
  fun w => (emit (EvWriteRow f r) w, inr tt).

(** [cloudinary.api.delete_resources(public_ids, resource_type=...)] *)
Definition api_delete_resources (public_ids : list string)
    (resource_type : string) : M (list (string * list (string * string))) :=
  fun w =>
    let w1 := emit (EvDelete public_ids resource_type) w in
    match delete_resources public_ids resource_type (remote w1) with
    | (rm, Response body) =>
        (mkWorld (files w1) rm (ticks w1) (journal w1), inr body)
    | (rm, Raises msg) =>
        (mkWorld (files w1) rm (ticks w1) (journal w1), inl (CloudinaryError msg))
    end.

(** [datetime.now()] *)
Definition datetime_now : M Z := fun w =>
  (mkWorld (files w) (remote w) (S (ticks w)) (journal w), inr (clock (ticks w))).

(** [datetime.strptime(s, "%Y-%m-%d %H:%M:%S")] *)
Definition datetime_strptime (s : string) : M Z :=
  match strptime s with
  | inr t => mret t
  | inl msg => raise (ValueError msg)
  end.

(** [dt - timedelta(days=d)], which raises [OverflowError] below
    [datetime.min]. *)
Definition datetime_sub_days (dt d : Z) : M Z :=
  if dt - timedelta_days d <? 0 then raise OverflowError
  else mret (dt - timedelta_days d).
End Monad.

Arguments World {RT}.
Arguments M {RT} A.

(** ** [audiodeletefiles.py] *)

Module DeleteLastFiveAudioFiles.
Section Script.
Context `{RT : Runtime}.

Definition save_remaining_details_to_csv (remaining_files : list row) : M unit :=
  let new_csv_filename := "RemainingAudioFileDetails.csv" in
  try_except
    (csvfile ← open_w new_csv_filename;
     writerow csvfile ["Filename"; "Created At"];;
     for_each remaining_files (fun detail =>
       d0 ← index detail 0;
       d1 ← index detail 1;
       writerow csvfile [d0; d1]);;
     log INFO ("Remaining audio file details saved to " +:+ new_csv_filename))
    is_Exception
    (fun e => log ERROR
       ("Error writing remaining audio file details to CSV: " +:+ exn_str e)).

(** The body of the deletion loop, for one row of [files_to_delete]. *)
Definition delete_one (file_detail : row) : M unit :=
  filename ← index file_detail 0;
  try_except
    (response ← api_delete_resources [filename] "video";
     if bool_decide
          (dict_get (default [] (dict_get response "deleted")) filename
           = Some "deleted")
     then log INFO ("Successfully deleted: " +:+ filename)
     else log WARNING ("Failed to delete: " +:+ filename))
    is_cloudinary_error
    (fun e => log ERROR
       ("Error deleting file '" +:+ filename +:+ "': " +:+ exn_str e)).

Definition delete_audio_files (csv_filename : string) : M unit :=
  try_except
    (present ← os_path_exists csv_filename;
     if negb present then
       log ERROR ("CSV file '" +:+ csv_filename +:+ "' does not exist.")
     else
       reader ← read_csv csv_filename;
       if (length reader <=? 1)%nat then
         log ERROR "CSV file does not contain enough data to process."
       else
         let audio_details := slice_from 1 reader in
         (if (length audio_details <? 5)%nat then
            log WARNING
              "The CSV file has fewer than 5 audio files. Deleting all available files."
          else mret tt);;
         let files_to_delete := files_to_delete_of audio_details in
         let remaining_files := remaining_files_of audio_details in
         for_each files_to_delete delete_one;;
         save_remaining_details_to_csv remaining_files)
    is_Exception
    (fun e => log ERROR
       ("Unexpected error while deleting audio files: " +:+ exn_str e)).
End Script.
End DeleteLastFiveAudioFiles.

(** ** [updatedcompareanddeletefile.py] *)

(** Background music URL list (filenames that should not be deleted). *)
Definition BACKGROUND_MUSIC_URLS : list (string * string) :=
  [ ("none", "");
    ("default", "https://res.cloudinary.com/dsw0dw6j6/video/upload/v1731607560/tiktok_audio/default.mp3");
    ("hard-as", "https://res.cloudinary.com/dsw0dw6j6/video/upload/v1731607548/tiktok_audio/hard-as.mp3");
    ("wonders", "https://res.cloudinary.com/dsw0dw6j6/video/upload/v1731607550/tiktok_audio/wonders.mp3");
    ("hot-pepper", "https://res.cloudinary.com/dsw0dw6j6/video/upload/v1731607551/tiktok_audio/hot-pepper.mp3");
    ("transition", "https://res.cloudinary.com/dsw0dw6j6/video/upload/v1731607553/tiktok_audio/transition.mp3");
    ("daylight", "https://res.cloudinary.com/dsw0dw6j6/video/upload/v1731607556/tiktok_audio/daylight.mp3");
    ("cinematic-epic", "https://res.cloudinary.com/dsw0dw6j6/video/upload/v1731607558/tiktok_audio/cinematic-epic.mp3");
    ("lovely", "https://res.cloudinary.com/dsw0dw6j6/video/upload/v1731607562/tiktok_audio/lovely.mp3");
    ("emotional-chill", "https://res.cloudinary.com/dsw0dw6j6/video/upload/v1731607564/tiktok_audio/emotional-chill.mp3");
    ("epic-cinematic", "https://res.cloudinary.com/dsw0dw6j6/video/upload/v1731607567/tiktok_audio/epic-cinematic.wav");
    ("aura-fast", "https://res.cloudinary.com/dsw0dw6j6/video/upload/v1731607569/tiktok_audio/aura-fast.mp3");
    ("summit", "https://res.cloudinary.com/dsw0dw6j6/video/upload/v1731607571/tiktok_audio/summit.mp3") ].

Module ProcessAudioFiles.
Section Script.
Context `{RT : Runtime}.

Definition save_remaining_details_to_csv (remaining_files : list row) : M unit :=
  let new_csv_filename := "RemainingAudioFileDetails.csv" in
  try_except
    (csvfile ← open_w new_csv_filename;
     writerow csvfile ["Filename"; "Created At"];;
     for_each remaining_files (fun detail =>
       d0 ← index detail 0;
       d1 ← index detail 1;
       writerow csvfile [d0; d1]);;
     log INFO ("Remaining audio file details saved to " +:+ new_csv_filename))
    is_Exception
    (fun e => log ERROR
       ("Error writing remaining audio file details to CSV: " +:+ exn_str e)).

(** The body of the processing loop for one row; the local lists
    [files_to_delete] and [remaining_files] are the accumulator. *)
Definition process_one (acc : list string * list row) (file_detail : row)
  : M (list string * list row) :=
  let '(files_to_delete, remaining_files) := acc in
  filename ← index file_detail 0;
  created_str ← index file_detail 1;
  created_at ← datetime_strptime created_str;
  if str_in filename (dict_values BACKGROUND_MUSIC_URLS) then
    log INFO ("Skipping " +:+ filename +:+
              " as it is in the background music list.");;
    mret (files_to_delete, remaining_files ++ [[filename; created_str]])
  else
    now ← datetime_now;
    threshold ← datetime_sub_days now 30;
    if created_at <? threshold then
      log INFO ("File " +:+ filename +:+
                " is older than 30 days and would be deleted.");;
      mret (files_to_delete ++ [filename], remaining_files)
    else
      mret (files_to_delete, remaining_files ++ [[filename; created_str]]).

Definition process_audio_files (csv_filename : string) : M unit :=
  try_except
    (present ← os_path_exists csv_filename;
     if negb present then
       log ERROR ("CSV file '" +:+ csv_filename +:+ "' does not exist.")
     else
       reader ← read_csv csv_filename;
       if (length reader <=? 1)%nat then
         log ERROR "CSV file does not contain enough data to process."
       else
         let audio_details := slice_from 1 reader in
         '(files_to_delete, remaining_files) ←
           for_fold audio_details process_one ([], []);
         (if bool_decide (files_to_delete <> []) then
            log INFO "The following files would be deleted: ";;
            for_each files_to_delete (fun file => log INFO (" - " +:+ file))
          else
            log INFO "No files are older than 30 days and eligible for deletion.");;
         save_remaining_details_to_csv remaining_files)
    is_Exception
    (fun e => log ERROR
       ("Unexpected error while processing audio files: " +:+ exn_str e)).
End Script.
End ProcessAudioFiles.


(** ** Vocabulary of the properties *)

(** The name of the file both scripts write. *)
Definition OUTPUT : string := "RemainingAudioFileDetails.csv".

(** The header row both scripts write. *)
Definition HEADER : row := ["Filename"; "Created At"].

Definition not_delete (e : event) : bool := negb (is_delete e).
Definition not_write (e : event) : bool := negb (is_write e).

Definition first_column (r : row) : string := default "" (r !! 0%nat).

(** Membership in the values of the allow-list, as the script tests it. *)
Definition allowlisted (filename : string) : bool :=
  str_in filename (dict_values BACKGROUND_MUSIC_URLS).

(** Log lines of the scripts. *)
Definition WARN_FEWER : event :=
  EvLog WARNING
    "The CSV file has fewer than 5 audio files. Deleting all available files.".

Definition SKIPPING (filename : string) : event :=
  EvLog INFO ("Skipping " +:+ filename +:+ " as it is in the background music list.").

Definition WOULD_DELETE (filename : string) : event :=
  EvLog INFO ("File " +:+ filename +:+ " is older than 30 days and would be deleted.").

(** The warning of a run of Policy A, if the record has fewer than five
    rows. *)
Definition warning_events (records : list row) : list event :=
  if (length records <? 5)%nat then [WARN_FEWER] else [].

Section Vocabulary.
Context `{RT : Runtime}.

(** An event that, if it writes, writes the output file. *)
Definition only_output (e : event) : bool :=
  match written_file e with
  | Some f => bool_decide (f = realpath OUTPUT)
  | None => true
  end.

(** A row that [process_one] cannot read: fewer than two columns, or a
    second column that [datetime.strptime] rejects. *)
Definition malformed (r : row) : bool :=
  match r with
  | _ :: created_str :: _ =>
      match strptime created_str with inl _ => true | inr _ => false end
  | _ => true
  end.

(** The world after the events [evs], none of which reaches the remote
    store or the clock. *)
Definition emit_all (evs : list event) (w : World) : World :=
  fold_left (fun w e => emit e w) evs w.

(** The world after one more call of [datetime.now()]. *)
Definition tick (w : World) : World :=
  mkWorld (files w) (remote w) (S (ticks w)) (journal w).

(** What [save_remaining_details_to_csv] emits when every row has its
    two columns. *)
Definition save_events (rem : list row) : list event :=
  EvOpenW (realpath OUTPUT) :: EvWriteRow (realpath OUTPUT) HEADER ::
  map (EvWriteRow (realpath OUTPUT)) rem ++
  [EvLog INFO ("Remaining audio file details saved to " +:+ OUTPUT)].

(** The result of Policy B's loop started from the lists [acc], given
    its result started from empty lists. *)
Definition prepend (acc : list string * list row)
    (r : World * (exn + (list string * list row)))
  : World * (exn + (list string * list row)) :=
  match r with
  | (w', inr (d, k)) => (w', inr (acc.1 ++ d, acc.2 ++ k))
  | (w', inl e) => (w', inl e)
  end.

(** A statement respects a relation between worlds when every run of it
    relates the world before to the world after, whether it returns or
    raises. *)
Definition respects (R : World -> World -> Prop) {A} (m : M A) : Prop :=
  forall w, R w (m w).1.

(** The run appended events that all satisfy [P], and the file system
    is the one before with these events applied. *)
Definition extends (P : event -> bool) (w w' : World) : Prop :=
  exists evs, journal w' = journal w ++ evs /\
              files w' = replay evs (files w) /\
              forallb P evs = true.

(** The remote store is as it was. *)
Definition same_remote (w w' : World) : Prop := remote w' = remote w.
End Vocabulary.

Arguments str_in : simpl never.
(** ** A concrete runtime

    An executable instance of the collaborators, on which the scripts can
    be run: a parser for the timestamp format, a remote store holding a
    list of public ids, a clock, and paths that name themselves. *)

Module Datetime.
(** [datetime.strptime] builds, from ["%Y-%m-%d %H:%M:%S"], the pattern
    [(\d\d\d\d)-(1[0-2]|0[1-9]|[1-9])-(3[0-1]|[1-2]\d|0[1-9]|[1-9]| [1-9])\s+(2[0-3]|[0-1]\d|\d):([0-5]\d|\d):(6[0-1]|[0-5]\d|\d)],
    matches it at the start of the string, rejects unconverted data, and
    builds the [datetime], which checks the calendar.  The fields are
    separated by characters that are not digits, so a field matches
    exactly when the digits up to the separator are one of its
    alternatives.  Digits and white space are the ASCII ones, and the
    message of a [ValueError] names its kind only. *)

Definition digit (c : ascii) : option Z :=
  let n := Z.of_N (N_of_ascii c) in
  if (48 <=? n) && (n <=? 57) then Some (n - 48) else None.

Definition is_space (c : ascii) : bool :=
  let n := Z.of_N (N_of_ascii c) in
  ((9 <=? n) && (n <=? 13)) || ((28 <=? n) && (n <=? 32)).

(** The leading digits of a string, and what follows them. *)
Fixpoint span_digits (s : list ascii) : list Z * list ascii :=
  match s with
  | [] => ([], [])
  | c :: s' =>
      match digit c with
      | Some d => let '(ds, rest) := span_digits s' in (d :: ds, rest)
      | None => ([], s)
      end
  end.

Fixpoint skip_spaces (s : list ascii) : list ascii :=
  match s with
  | c :: s' => if is_space c then skip_spaces s' else s
  | [] => []
  end.

(** A field of one or two digits, with the value range of its two-digit
    alternatives and whether a lone ["0"] is among the one-digit ones. *)
Definition field (lo hi : Z) (zero_ok : bool) (ds : list Z) : option Z :=
  match ds with
  | [d] => if zero_ok || (1 <=? d) then Some d else None
  | [d1; d2] =>
      let v := 10 * d1 + d2 in
      if (lo <=? v) && (v <=? hi) then Some v else None
  | _ => None
  end.

Definition expect (c : ascii) (s : list ascii) : option (list ascii) :=
  match s with
  | c' :: s' => if Ascii.eqb c c' then Some s' else None
  | [] => None
  end.

(** The day of the month: one or two digits, or a space and one digit. *)
Definition day_field (s : list ascii) : option (Z * list ascii) :=
  match s with
  | c :: c' :: rest =>
      if Ascii.eqb c " " then
        match digit c' with
        | Some d => if 1 <=? d then Some (d, rest) else None
        | None => None
        end
      else
        let '(dd, rest') := span_digits s in
        d ← field 1 31 false dd; Some (d, rest')
  | _ => None
  end.

Definition is_leap (y : Z) : bool :=
  (y mod 4 =? 0) && (negb (y mod 100 =? 0) || (y mod 400 =? 0)).

Definition days_in_month (y m : Z) : Z :=
  if m =? 2 then (if is_leap y then 29 else 28)
  else if (m =? 4) || (m =? 6) || (m =? 9) || (m =? 11) then 30
  else 31.

Definition days_before_year (y : Z) : Z :=
  let p := y - 1 in p * 365 + p / 4 - p / 100 + p / 400.

Fixpoint days_before_month_aux (y : Z) (k : nat) : Z :=
  match k with
  | O => 0
  | S k' => days_before_month_aux y k' + days_in_month y (Z.of_nat k)
  end.

Definition days_before_month (y m : Z) : Z :=
  days_before_month_aux y (Z.to_nat (m - 1)).

(** [date(y, m, d).toordinal()]; 0001-01-01 has ordinal 1. *)
Definition ymd2ord (y m d : Z) : Z :=
  days_before_year y + days_before_month y m + d.

(** The instant of a [datetime], in microseconds from
    0001-01-01 00:00:00; two naive [datetime]s compare as these do. *)
Definition to_micros (y m d hh mm ss : Z) : Z :=
  (((ymd2ord y m d - 1) * 24 + hh) * 60 + mm) * 60 * 1000000 + ss * 1000000.

(** The six fields matched by the pattern, if it matches all of [s]. *)
Definition match_fields (s : list ascii) : option (Z * Z * Z * Z * Z * Z) :=
  let '(yd, s1) := span_digits s in
  match yd with
  | [y1; y2; y3; y4] =>
      let y := 1000 * y1 + 100 * y2 + 10 * y3 + y4 in
      s2 ← expect "-" s1;
      let '(md, s3) := span_digits s2 in
      m ← field 1 12 false md;
      s4 ← expect "-" s3;
      '(d, s5) ← day_field s4;
      match s5 with
      | c :: _ =>
          if is_space c then
            let s6 := skip_spaces s5 in
            let '(hd, s7) := span_digits s6 in
            hh ← field 0 23 true hd;
            s8 ← expect ":" s7;
            let '(mind, s9) := span_digits s8 in
            mm ← field 0 59 true mind;
            s10 ← expect ":" s9;
            let '(sd, s11) := span_digits s10 in
            ss ← field 0 61 true sd;
            match s11 with
            | [] => Some (y, m, d, hh, mm, ss)
            | _ => None
            end
          else None
      | [] => None
      end
  | _ => None
  end.

Definition strptime (s : string) : string + Z :=
  match match_fields (list_ascii_of_string s) with
  | None =>
      inl ("time data '" +:+ s +:+
           "' does not match format '%Y-%m-%d %H:%M:%S'")
  | Some (y, m, d, hh, mm, ss) =>
      if y <? 1 then inl "year 0 is out of range"
      else if days_in_month y m <? d then inl "day is out of range for month"
      else if 59 <? ss then inl "second must be in 0..59"
      else inr (to_micros y m d hh mm ss)
  end.
End Datetime.

Module Demo.
(** A store that holds public ids.  Deleting an id it holds answers
    ["deleted"], deleting another answers ["not_found"], and a call that
    names an id listed as unreachable raises. *)
Record store : Type := mkStore {
  present : list string;
  unreachable : list string;
}.

Definition delete (public_ids : list string) (resource_type : string)
    (st : store) : store * api_reply :=
  if existsb (fun i => str_in i (unreachable st)) public_ids then
    (st, Raises "Unexpected error - connection refused")
  else
    (mkStore (filter (fun i => negb (str_in i public_ids)) (present st))
             (unreachable st),
     Response
       [("deleted",
         map (fun i => (i, if str_in i (present st) then "deleted"
                           else "not_found")) public_ids)]).

(** The clock reads 2024-12-25 12:00:00 and advances a second a call. *)
Definition now (k : nat) : Z :=
  Datetime.to_micros 2024 12 25 12 0 0 + Z.of_nat k * 1000000.

Definition runtime : Runtime := {|
  Remote := store;
  delete_resources := delete;
  strptime := Datetime.strptime;
  clock := now;
  realpath := fun path => path;
|}.

(** A world with the given files and remote store, before any effect. *)
Definition world (fs : list (string * list row)) (st : store) : World (RT := runtime) :=
  mkWorld (RT := runtime) (list_to_map fs) st 0 [].

Definition store0 : store := mkStore ["a"; "c"; "d"; "g"] ["e"].

(** Seven records [a] to [g] with increasing timestamps. *)
Definition seven : list row :=
  [ ["a"; "2024-01-01 00:00:00"]; ["b"; "2024-01-02 00:00:00"];
    ["c"; "2024-01-03 00:00:00"]; ["d"; "2024-01-04 00:00:00"];
    ["e"; "2024-01-05 00:00:00"]; ["f"; "2024-01-06 00:00:00"];
    ["g"; "2024-12-20 00:00:00"] ].

Definition three : list row := take 3 seven.

(** An allow-listed record and another, both 60 days old, and a record
    10 days old. *)
Definition default_row : row :=
  ["https://res.cloudinary.com/dsw0dw6j6/video/upload/v1731607560/tiktok_audio/default.mp3";
   "2024-10-26 12:00:00"].
Definition jingle_row : row := ["jingle"; "2024-10-26 12:00:00"].
Definition fresh_row : row := ["fresh"; "2024-12-15 12:00:00"].
Definition nameless_row : row := [""; "2020-01-01 00:00:00"].

(** The file the listing script writes. *)
Definition INPUT : string := "AudioFileDetails.csv".

Definition world_seven : World (RT := runtime) :=
  world [(INPUT, HEADER :: seven)] store0.

Definition world_three : World (RT := runtime) :=
  world [(INPUT, HEADER :: three)] store0.

(** An input with its header only, and no output file yet. *)
Definition world_empty : World (RT := runtime) :=
  world [(INPUT, [HEADER])] store0.

(** An input with its header only, beside the output of an earlier run. *)
Definition world_stale : World (RT := runtime) :=
  world [(INPUT, [HEADER]); (OUTPUT, [HEADER; ["old"; "2023-12-31 00:00:00"]])]
        store0.

(** An input whose one data row has a single column. *)
Definition world_solo : World (RT := runtime) :=
  world [(INPUT, [HEADER; ["solo"]])] store0.

(** An input whose second data row has a single column, followed by
    five rows, beside the output of an earlier run. *)
Definition world_solo_kept : World (RT := runtime) :=
  world [(INPUT, HEADER :: ["a"; "2024-01-01 00:00:00"] :: ["solo"] :: drop 2 seven);
         (OUTPUT, [HEADER; ["old"; "2023-12-31 00:00:00"]])]
        store0.

(** The output of an earlier run, given again as the input. *)
Definition world_in_place : World (RT := runtime) :=
  world [(OUTPUT, HEADER :: seven)] store0.

(** An input with a timestamp in the remote store's own format. *)
Definition world_iso : World (RT := runtime) :=
  world [(INPUT, [HEADER; jingle_row; ["tiktok_audio/x"; "2024-11-14T18:06:00Z"]])]
        store0.
End Demo.

(** ** Reference functions for whole runs

    Pure functions that say, from the input alone, what a run does; the
    properties below relate the scripts to them. *)

Section Reference.
Context `{RT : Runtime}.

(** The log line that follows one delete request, from the reply to it. *)
Definition outcome_log (filename : string) (reply : api_reply) : event :=
  match reply with
  | Response body =>
      if bool_decide
           (dict_get (default [] (dict_get body "deleted")) filename
            = Some "deleted")
      then EvLog INFO ("Successfully deleted: " +:+ filename)
      else EvLog WARNING ("Failed to delete: " +:+ filename)
  | Raises msg =>
      EvLog ERROR ("Error deleting file '" +:+ filename +:+ "': " +:+ msg)
  end.

(** The deletion pass over [rows] against the store [rm]: the store after
    it, and its effects. *)
Fixpoint deletion_pass (rows : list row) (rm : Remote) : Remote * list event :=
  match rows with
  | [] => (rm, [])
  | r :: rows' =>
      let filename := first_column r in
      let '(rm1, reply) := delete_resources [filename] "video" rm in
      let '(rm2, evs) := deletion_pass rows' rm1 in
      (rm2, EvDelete [filename] "video" :: outcome_log filename reply :: evs)
  end.

(** The world after the deletion pass over [rows]. *)
Definition after_pass (rows : list row) (w : World) : World :=
  mkWorld (files w) (deletion_pass rows (remote w)).1 (ticks w)
          (journal w ++ (deletion_pass rows (remote w)).2).

(** The row that the rewrite stores for a row kept. *)
Definition stored (r : row) : row := take 2 r.

(** The effects of a rewrite that fails after the rows [good]. *)
Definition save_events_short (good : list row) : list event :=
  EvOpenW (realpath OUTPUT) :: EvWriteRow (realpath OUTPUT) HEADER ::
  map (EvWriteRow (realpath OUTPUT)) (map stored good) ++
  [EvLog ERROR
     "Error writing remaining audio file details to CSV: list index out of range"].

(** The selection of Policy B over [rows], when the clock has been read
    [t] times: the identifiers marked, the rows kept, the log lines of the
    loop, and the number of clock reads after it.  It is meant for rows
    that are not [malformed]. *)
Fixpoint selection (rows : list row) (t : nat)
  : list string * list row * list event * nat :=
  match rows with
  | [] => ([], [], [], t)
  | r :: rows' =>
      let filename := first_column r in
      let created_str := default "" (r !! 1%nat) in
      let created_at := match strptime created_str with
                        | inr c => c
                        | inl _ => 0
                        end in
      if allowlisted filename then
        let '(del, keep, evs, t') := selection rows' t in
        (del, [filename; created_str] :: keep, SKIPPING filename :: evs, t')
      else
        let '(del, keep, evs, t') := selection rows' (S t) in
        if created_at <? clock t - timedelta_days 30 then
          (filename :: del, keep, WOULD_DELETE filename :: evs, t')
        else
          (del, [filename; created_str] :: keep, evs, t')
  end.

(** The report that Policy B logs after its loop. *)
Definition report_events (files_to_delete : list string) : list event :=
  match files_to_delete with
  | [] => [EvLog INFO "No files are older than 30 days and eligible for deletion."]
  | _ :: _ =>
      EvLog INFO "The following files would be deleted: " ::
      map (fun file => EvLog INFO (" - " +:+ file)) files_to_delete
  end.

(** The world after [k] runs of Policy A, each on the file [csv]. *)
Fixpoint repeat_policyA (k : nat) (csv : string) (w : World) : World :=
  match k with
  | O => w
  | S k' =>
      (DeleteLastFiveAudioFiles.delete_audio_files csv (repeat_policyA k' csv w)).1
  end.
End Reference.

(** ** [list_audios.py]

    The listing script pages through the resources of the remote store and
    writes them to [AudioFileDetails.csv] beside the script.  Its loop is
    [while True]: it is embedded with a bound on the number of requests,
    and a run that reaches the bound has not finished. *)

(** [str(n)] for a length. *)
Definition str_of_nat (n : nat) : string :=
  NilEmpty.string_of_uint (Nat.to_uint n).

(** [os.path.join(a, b)] of [posixpath]. *)
Definition os_path_join (a b : string) : string :=
  if String.prefix "/" b then b
  else if String.eqb a "" then a +:+ b
  else match String.get (String.length a - 1) a with
       | Some "/"%char => a +:+ b
       | _ => a +:+ "/" +:+ b
       end.

(** What [cloudinary.api.resources] can raise, by the [except] clause
    that catches it. *)
Inductive fetch_failure : Type :=
| FetchCloudinaryError (msg : string)     (* cloudinary.exceptions.Error *)
| FetchJSONDecodeError (msg : string)     (* json.JSONDecodeError *)
| FetchKeyboardInterrupt                  (* KeyboardInterrupt *)
| FetchException (msg : string).          (* any other Exception *)

(** One response of [cloudinary.api.resources], as far as the script
    reads it: its text for the log, the value under ['resources'] if the
    key is there (an empty response has no key), and
    [response.get('next_cursor')]. *)
Record page : Type := mkPage {
  page_str : string;
  page_resources : option (list (list (string * string)));
  page_next_cursor : option string;
}.

Inductive list_reply : Type :=
| Page (response : page)
| Fails (f : fetch_failure).

Class Listing `{RT : Runtime} : Type := {
  (** [resources resource_type type max_results next_cursor timeout] *)
  list_resources :
    string -> string -> Z -> option string -> Z -> Remote -> Remote * list_reply;
  (** [os.path.dirname(__file__)] *)
  base_dir : string;
}.

(** How the loop of [get_audio_files_details] ended. *)
Inductive loop_end : Type :=
| LoopBreak                       (* left by one of its [break]s *)
| LoopRaised (f : fetch_failure)  (* left by an exception *)
| LoopRunning.                    (* still running at the bound *)

Module CloudinaryFileCounts.
Section Script.
Context `{LS : Listing}.

Definition AUDIO_DETAILS_FILENAME : string := "AudioFileDetails.csv".

(** [cloudinary.api.resources(...)], with what it raises as a value. *)
Definition api_resources (resource_type type_ : string) (max_results : Z)
    (next_cursor : option string) (timeout : Z) : M list_reply :=
  fun w =>
    let '(rm, reply) :=
      list_resources resource_type type_ max_results next_cursor timeout
        (remote w) in
    (mkWorld (files w) rm (ticks w) (journal w), inr reply).

(** The entry appended for one resource: ["filename"] and ["created_at"]. *)
Definition detail_of (resource : list (string * string)) : string * string :=
  (default "Unknown" (dict_get resource "public_id"),
   default "Unknown" (dict_get resource "created_at")).

(** [not next_cursor] *)
Definition no_cursor (next_cursor : option string) : bool :=
  match next_cursor with
  | None => true
  | Some c => String.eqb c ""
  end.

(** The [while True] loop, for at most [fuel] requests; the list
    [audio_details] is the one the loop appends to, which outlives an
    exception. *)
Fixpoint fetch_loop (fuel : nat) (next_cursor : option string)
    (audio_details : list (string * string))
  : M (list (string * string) * loop_end) :=
  match fuel with
  | O => mret (audio_details, LoopRunning)
  | S fuel' =>
      reply ← api_resources "video" "upload" 50 next_cursor 60;
      match reply with
      | Fails f => mret (audio_details, LoopRaised f)
      | Page response =>
          match page_resources response with
          | None =>
              log WARNING
                ("No valid response for video (audio) files. Response: "
                 +:+ page_str response);;
              mret (audio_details, LoopBreak)
          | Some resources =>
              let audio_details := audio_details ++ map detail_of resources in
              let next_cursor := page_next_cursor response in
              if no_cursor next_cursor then mret (audio_details, LoopBreak)
              else fetch_loop fuel' next_cursor audio_details
          end
      end
  end.

(** The result is [None] when the loop has not finished within [fuel]
    requests. *)
Definition get_audio_files_details (fuel : nat)
  : M (option (list (string * string))) :=
  log INFO "Fetching details for audio files (video type in Cloudinary).";;
  '(audio_details, e) ← fetch_loop fuel None [];
  match e with
  | LoopRunning => mret None
  | LoopBreak =>
      log INFO ("Fetched " +:+ str_of_nat (length audio_details)
                +:+ " audio files.");;
      mret (Some audio_details)
  | LoopRaised (FetchCloudinaryError msg) =>
      log ERROR ("Cloudinary error fetching audio files: " +:+ msg);;
      mret (Some audio_details)
  | LoopRaised (FetchJSONDecodeError msg) =>
      log ERROR ("JSON decoding error while parsing the response: " +:+ msg);;
      mret (Some audio_details)
  | LoopRaised FetchKeyboardInterrupt =>
      log WARNING "Script interrupted by user.";;
      mret (Some audio_details)
  | LoopRaised (FetchException msg) =>
      log ERROR ("Unexpected error: " +:+ msg);;
      mret (Some audio_details)
  end.

Definition save_details_to_csv (filename : string)
    (audio_details : list (string * string)) : M unit :=
  let output_path := os_path_join base_dir filename in
  try_except
    (csvfile ← open_w output_path;
     writerow csvfile ["Filename"; "Created At"];;
     for_each audio_details (fun detail =>
       writerow csvfile [detail.1; detail.2]);;
     log INFO ("Audio file details saved to " +:+ output_path))
    is_Exception
    (fun e => log ERROR
       ("Error writing audio file details to CSV file: " +:+ exn_str e)).

Definition process_audio_details (fuel : nat) : M (option unit) :=
  audio_files_details ← get_audio_files_details fuel;
  match audio_files_details with
  | None => mret None
  | Some details =>
      save_details_to_csv AUDIO_DETAILS_FILENAME details;;
      mret (Some tt)
  end.
End Script.
End CloudinaryFileCounts.

(** *** Vocabulary for the listing *)

Section ListingVocabulary.
Context `{LS : Listing}.

(** The row written for an entry. *)
Definition detail_row (detail : string * string) : row := [detail.1; detail.2].

(** The file the listing script writes. *)
Definition LISTING : string :=
  os_path_join base_dir CloudinaryFileCounts.AUDIO_DETAILS_FILENAME.

(** How a listing stops. *)
Inductive stop : Type :=
| StopLastPage                      (* a page without a next cursor *)
| StopInvalid (response : page)     (* a response without ['resources'] *)
| StopFailure (f : fetch_failure).  (* the request raised *)

(** [serves rm cursor pages s rm']: asked from [cursor] on, the store [rm]
    answers with the pages of resources [pages], each but the last handing
    out the cursor of the next request, then stops by [s], and is left as
    [rm']. *)
Inductive serves : Remote -> option string ->
    list (list (list (string * string))) -> stop -> Remote -> Prop :=
| serves_failure rm cursor rm' f :
    list_resources "video" "upload" 50 cursor 60 rm = (rm', Fails f) ->
    serves rm cursor [] (StopFailure f) rm'
| serves_invalid rm cursor rm' response :
    list_resources "video" "upload" 50 cursor 60 rm = (rm', Page response) ->
    page_resources response = None ->
    serves rm cursor [] (StopInvalid response) rm'
| serves_last rm cursor rm' response resources :
    list_resources "video" "upload" 50 cursor 60 rm = (rm', Page response) ->
    page_resources response = Some resources ->
    CloudinaryFileCounts.no_cursor (page_next_cursor response) = true ->
    serves rm cursor [resources] StopLastPage rm'
| serves_more rm cursor rm1 response resources pages s rm' :
    list_resources "video" "upload" 50 cursor 60 rm = (rm1, Page response) ->
    page_resources response = Some resources ->
    CloudinaryFileCounts.no_cursor (page_next_cursor response) = false ->
    serves rm1 (page_next_cursor response) pages s rm' ->
    serves rm cursor (resources :: pages) s rm'.

(** The entries of the pages, in order. *)
Definition details_of (pages : list (list (list (string * string))))
  : list (string * string) :=
  concat (map (map CloudinaryFileCounts.detail_of) pages).

(** The log lines that follow the loop, by the way it stopped. *)
Definition stop_events (s : stop) (n : nat) : list event :=
  match s with
  | StopLastPage =>
      [EvLog INFO ("Fetched " +:+ str_of_nat n +:+ " audio files.")]
  | StopInvalid response =>
      [EvLog WARNING ("No valid response for video (audio) files. Response: "
                      +:+ page_str response);
       EvLog INFO ("Fetched " +:+ str_of_nat n +:+ " audio files.")]
  | StopFailure (FetchCloudinaryError msg) =>
      [EvLog ERROR ("Cloudinary error fetching audio files: " +:+ msg)]
  | StopFailure (FetchJSONDecodeError msg) =>
      [EvLog ERROR ("JSON decoding error while parsing the response: " +:+ msg)]
  | StopFailure FetchKeyboardInterrupt =>
      [EvLog WARNING "Script interrupted by user."]
  | StopFailure (FetchException msg) =>
      [EvLog ERROR ("Unexpected error: " +:+ msg)]
  end.

(** The warning logged inside the loop, and the way the loop ends. *)
Definition stop_warning (s : stop) : list event :=
  match s with
  | StopInvalid response =>
      [EvLog WARNING ("No valid response for video (audio) files. Response: "
                      +:+ page_str response)]
  | _ => []
  end.

Definition loop_end_of (s : stop) : loop_end :=
  match s with
  | StopFailure f => LoopRaised f
  | _ => LoopBreak
  end.

Definition FETCHING : event :=
  EvLog INFO "Fetching details for audio files (video type in Cloudinary).".

(** What [save_details_to_csv] emits. *)
Definition listing_events (details : list (string * string)) : list event :=
  EvOpenW (realpath LISTING) :: EvWriteRow (realpath LISTING) HEADER ::
  map (EvWriteRow (realpath LISTING)) (map detail_row details) ++
  [EvLog INFO ("Audio file details saved to " +:+ LISTING)].
End ListingVocabulary.

Module DemoListing.
(** Seven resources on three pages; the last has no creation time. *)
Definition resource (public_id created_at : string) : list (string * string) :=
  [("public_id", public_id); ("created_at", created_at); ("format", "mp3")].

Definition page1 : page :=
  mkPage "{'resources': [...], 'next_cursor': 'c2'}"
    (Some [resource "a" "2024-01-01T00:00:00Z"; resource "b" "2024-01-02T00:00:00Z"])
    (Some "c2").

Definition page2 : page :=
  mkPage "{'resources': [...], 'next_cursor': 'c3'}"
    (Some [resource "c" "2024-01-03T00:00:00Z"; resource "d" "2024-01-04T00:00:00Z"])
    (Some "c3").

Definition page3 : page :=
  mkPage "{'resources': [...]}"
    (Some [resource "e" "2024-01-05T00:00:00Z"; resource "f" "2024-01-06T00:00:00Z";
           [("public_id", "g")]])
    None.

(** A store that serves the three pages. *)
Definition serve (resource_type type_ : string) (max_results : Z)
    (next_cursor : option string) (timeout : Z) (st : Demo.store)
  : Demo.store * list_reply :=
  match next_cursor with
  | None => (st, Page page1)
  | Some c =>
      if String.eqb c "c2" then (st, Page page2)
      else if String.eqb c "c3" then (st, Page page3)
      else (st, Fails (FetchCloudinaryError "Invalid value for next_cursor"))
  end.

(** A store interrupted during the second request. *)
Definition serve_interrupted (resource_type type_ : string) (max_results : Z)
    (next_cursor : option string) (timeout : Z) (st : Demo.store)
  : Demo.store * list_reply :=
  match next_cursor with
  | None => (st, Page page1)
  | Some _ => (st, Fails FetchKeyboardInterrupt)
  end.

(** A store that hands out a cursor with every page. *)
Definition serve_endless (resource_type type_ : string) (max_results : Z)
    (next_cursor : option string) (timeout : Z) (st : Demo.store)
  : Demo.store * list_reply :=
  (st, Page page1).

Definition paged : Listing (RT := Demo.runtime) :=
  @Build_Listing Demo.runtime serve "/srv/audio".

Definition interrupted : Listing (RT := Demo.runtime) :=
  @Build_Listing Demo.runtime serve_interrupted "/srv/audio".

Definition endless : Listing (RT := Demo.runtime) :=
  @Build_Listing Demo.runtime serve_endless "/srv/audio".

(** A world with no file. *)
Definition world0 : World (RT := Demo.runtime) := Demo.world [] Demo.store0.
End DemoListing.

Module Cases.
(** A record of seven rows with a third column, under another header. *)
Definition wide : list row :=
  map (fun r => r ++ ["mp3"]) Demo.seven.

Definition world_wide : World (RT := Demo.runtime) :=
  Demo.world [(Demo.INPUT, ["public_id"; "created"; "format"] :: wide)] Demo.store0.

(** A record whose fifth row is a blank line. *)
Definition blank : list row :=
  take 4 Demo.seven ++ [] :: drop 5 Demo.seven.

Definition world_blank : World (RT := Demo.runtime) :=
  Demo.world [(Demo.INPUT, HEADER :: blank)] Demo.store0.

(** The record of the second scenario. *)
Definition scenario2 : list row :=
  [Demo.default_row; Demo.jingle_row; Demo.fresh_row].

Definition world_scenario2 : World (RT := Demo.runtime) :=
  Demo.world [(Demo.INPUT, HEADER :: scenario2)] Demo.store0.

(** Twelve records in the output file of an earlier run. *)
Definition twelve : list row := Demo.seven ++ take 5 Demo.seven.

Definition world_twelve : World (RT := Demo.runtime) :=
  Demo.world [(OUTPUT, HEADER :: twelve)] Demo.store0.
End Cases.

(** * Properties *)

(** ** Slices *)

Lemma clamp_minus5 {A} (l : list A) : clamp_index (-5) l = (length l - 5)%nat.
Proof. unfold clamp_index. simpl. lia. Qed.

Lemma slice_from_1 {A} (x : A) (l : list A) : slice_from 1 (x :: l) = l.
Proof.
  unfold slice_from, clamp_index.
  replace (Z.to_nat _) with 1%nat; [reflexivity|].
  cbn [length]. destruct (1 <? 0) eqn:E; lia.
Qed.

Lemma files_to_delete_of_drop (l : list row) :
  files_to_delete_of l = drop (length l - 5) l.
Proof. unfold files_to_delete_of, slice_from. by rewrite clamp_minus5. Qed.

Lemma remaining_files_of_take (l : list row) :
  remaining_files_of l = take (length l - 5) l.
Proof. unfold remaining_files_of, slice_to. by rewrite clamp_minus5. Qed.

Lemma tail5_app (l : list row) :
  remaining_files_of l ++ files_to_delete_of l = l.
Proof.
  rewrite files_to_delete_of_drop, remaining_files_of_take. apply take_drop.
Qed.

(** ** The journal and the file system *)

Lemma replay_app evs1 evs2 fs :
  replay (evs1 ++ evs2) fs = replay evs2 (replay evs1 fs).
Proof. unfold replay. apply fold_left_app. Qed.

Lemma replay_no_write evs fs :
  forallb (fun e => negb (is_write e)) evs = true -> replay evs fs = fs.
Proof.
  revert fs. induction evs as [|e evs IH]; intros fs H; [reflexivity|].
  simpl in H. apply andb_true_iff in H as [He H].
  unfold replay. simpl. fold (replay evs (apply_event fs e)).
  rewrite IH by assumption. by destruct e.
Qed.

Lemma forallb_app_true {A} (p : A -> bool) (l1 l2 : list A) :
  forallb p (l1 ++ l2) = true <-> forallb p l1 = true /\ forallb p l2 = true.
Proof. rewrite forallb_app. apply andb_true_iff. Qed.

Section Facts.
Context `{RT : Runtime}.

(** *** Running a statement *)

Lemma run_bind {A B} (m : M A) (k : A -> M B) (w : World) :
  (m ≫= k) w =
  match m w with
  | (w', inr a) => k a w'
  | (w', inl e) => (w', inl e)
  end.
Proof. reflexivity. Qed.

Lemma run_ret_bind {A B} (a : A) (k : A -> M B) (w : World) :
  (mret a ≫= k) w = k a w.
Proof. reflexivity. Qed.

Lemma index_cons_0 {A} (x : A) l : index (x :: l) 0 = mret x.
Proof. reflexivity. Qed.

Lemma index_cons_1 {A} (x y : A) l : index (x :: y :: l) 1 = mret y.
Proof. reflexivity. Qed.

Lemma run_bind_inr {A B} (m : M A) (k : A -> M B) w w' a :
  m w = (w', inr a) -> (m ≫= k) w = k a w'.
Proof. intros H. rewrite run_bind, H. reflexivity. Qed.

Lemma run_bind_inl {A B} (m : M A) (k : A -> M B) w w' e :
  m w = (w', inl e) -> (m ≫= k) w = (w', inl e).
Proof. intros H. rewrite run_bind, H. reflexivity. Qed.

Lemma for_each_cons {A} (x : A) l (f : A -> M unit) :
  for_each (x :: l) f = (f x ;; for_each l f).
Proof. reflexivity. Qed.

Lemma for_fold_cons {A S} (x : A) l (f : S -> A -> M S) acc :
  for_fold (x :: l) f acc = (acc' ← f acc x; for_fold l f acc').
Proof. reflexivity. Qed.

Lemma for_each_app {A} (l1 l2 : list A) (f : A -> M unit) w :
  for_each (l1 ++ l2) f w = (for_each l1 f ;; for_each l2 f) w.
Proof.
  revert w. induction l1 as [|x l1 IH]; intros w; simpl.
  - reflexivity.
  - rewrite !run_bind. destruct (f x w) as [w1 [e|[]]]; [reflexivity|].
    rewrite IH. reflexivity.
Qed.

Lemma for_fold_app {A S} (l1 l2 : list A) (f : S -> A -> M S) acc w :
  for_fold (l1 ++ l2) f acc w =
  (acc' ← for_fold l1 f acc; for_fold l2 f acc') w.
Proof.
  revert acc w. induction l1 as [|x l1 IH]; intros acc w; simpl.
  - reflexivity.
  - rewrite !run_bind. destruct (f acc x w) as [w1 [e|acc1]]; [reflexivity|].
    rewrite IH. reflexivity.
Qed.


(** *** Invariants of a run *)

Section Rules.
Context (R : World -> World -> Prop) `{!PreOrder R}.

Lemma respects_ret {A} (a : A) : respects R (mret a).
Proof. intros w. simpl. reflexivity. Qed.

Lemma respects_raise {A} (e : exn) : respects R (raise (A := A) e).
Proof. intros w. simpl. reflexivity. Qed.

Lemma respects_bind {A B} (m : M A) (k : A -> M B) :
  respects R m -> (forall a, respects R (k a)) -> respects R (m ≫= k).
Proof.
  intros Hm Hk w. rewrite run_bind. specialize (Hm w).
  destruct (m w) as [w1 [e|a]]; simpl in *; [assumption|].
  etransitivity; [exact Hm | apply Hk].
Qed.

Lemma respects_try {A} (body : M A) catches handler :
  respects R body -> (forall e, respects R (handler e)) ->
  respects R (try_except body catches handler).
Proof.
  intros Hb Hh w. unfold try_except. specialize (Hb w).
  destruct (body w) as [w1 [e|a]]; simpl in *; [|assumption].
  destruct (catches e); simpl; [|assumption].
  etransitivity; [exact Hb | apply Hh].
Qed.

Lemma respects_for_each {A} (l : list A) (f : A -> M unit) :
  (forall x, respects R (f x)) -> respects R (for_each l f).
Proof.
  intros Hf. induction l as [|x l IH]; simpl.
  - apply respects_ret.
  - apply respects_bind; [apply Hf | intros _; exact IH].
Qed.

Lemma respects_for_fold {A S} (l : list A) (f : S -> A -> M S) acc :
  (forall s x, respects R (f s x)) -> respects R (for_fold l f acc).
Proof.
  intros Hf. revert acc. induction l as [|x l IH]; intros acc; simpl.
  - apply respects_ret.
  - apply respects_bind; [apply Hf | intros s; apply IH].
Qed.

Lemma respects_index {A} (l : list A) i : respects R (index l i).
Proof.
  unfold index. destruct (l !! i); [apply respects_ret | apply respects_raise].
Qed.

Lemma respects_os_path_exists path : respects R (os_path_exists path).
Proof. intros w. simpl. reflexivity. Qed.

Lemma respects_read_csv path : respects R (read_csv path).
Proof.
  intros w. unfold read_csv. destruct (files w !! realpath path); simpl; reflexivity.
Qed.

Lemma respects_datetime_strptime s : respects R (datetime_strptime s).
Proof.
  unfold datetime_strptime.
  destruct (strptime s); [apply respects_raise | apply respects_ret].
Qed.

Lemma respects_datetime_sub_days dt d : respects R (datetime_sub_days dt d).
Proof.
  unfold datetime_sub_days.
  destruct (_ <? _); [apply respects_raise | apply respects_ret].
Qed.

Lemma respects_log lvl msg :
  (forall w, R w (emit (EvLog lvl msg) w)) -> respects R (log lvl msg).
Proof. intros H w. apply H. Qed.

Lemma respects_writerow f r :
  (forall w, R w (emit (EvWriteRow f r) w)) -> respects R (writerow f r).
Proof. intros H w. apply H. Qed.

(** The handle that [open] returns is the file it opened. *)
Lemma respects_open_w {B} path (k : string -> M B) :
  (forall w, R w (emit (EvOpenW (realpath path)) w)) ->
  respects R (k (realpath path)) ->
  respects R (open_w path ≫= k).
Proof.
  intros H Hk w. rewrite run_bind. unfold open_w.
  etransitivity; [apply H | apply Hk].
Qed.

Lemma respects_datetime_now :
  (forall w, R w (mkWorld (files w) (remote w) (S (ticks w)) (journal w))) ->
  respects R datetime_now.
Proof. intros H w. apply H. Qed.

Lemma respects_api_delete_resources ids rt :
  (forall w, R w (emit (EvDelete ids rt) w)) ->
  (forall w rm, R w (mkWorld (files w) rm (ticks w) (journal w))) ->
  respects R (api_delete_resources ids rt).
Proof.
  intros He Hr w. unfold api_delete_resources. cbv zeta.
  destruct (delete_resources _ _ _) as [rm [body|msg]]; cbn [fst];
    (etransitivity; [apply He | apply (Hr (emit _ w))]).
Qed.
End Rules.


#[export] Instance extends_preorder P : PreOrder (extends P).
Proof.
  split.
  - intros w. exists []. rewrite app_nil_r. auto.
  - intros w1 w2 w3 (e1 & J1 & F1 & P1) (e2 & J2 & F2 & P2).
    exists (e1 ++ e2). rewrite J2, J1, F2, F1, app_assoc, replay_app.
    repeat split. apply forallb_app_true. auto.
Qed.

Lemma extends_emit (P : event -> bool) e w : P e = true -> extends P w (emit e w).
Proof.
  intros H. exists [e]. simpl. rewrite H. auto.
Qed.

Lemma extends_silent (P : event -> bool) w rm t :
  extends P w (mkWorld (files w) rm t (journal w)).
Proof. exists []. simpl. rewrite app_nil_r. auto. Qed.


#[export] Instance same_remote_preorder : PreOrder same_remote.
Proof.
  split; unfold same_remote.
  - intros w. reflexivity.
  - intros w1 w2 w3 H1 H2. congruence.
Qed.
End Facts.

(** One step of the proof that a script respects a relation: the rule of
    the statement at the head of the goal. *)
Ltac respects_step :=
  lazymatch goal with
  | |- respects _ (if ?b then _ else _) => destruct b
  | |- respects _ (match ?p with (_, _) => _ end) => destruct p
  | |- respects _ (let '(_, _) := ?p in _) => destruct p
  | |- respects ?R _ =>
      first
        [ apply (respects_ret R) | apply (respects_raise R)
        | apply (respects_index R)
        | apply (respects_os_path_exists R) | apply (respects_read_csv R)
        | apply (respects_datetime_strptime R)
        | apply (respects_datetime_sub_days R)
        | apply (respects_log R) | apply (respects_writerow R)
        | apply (respects_open_w R) | apply (respects_datetime_now R)
        | apply (respects_api_delete_resources R)
        | apply (respects_try R) | apply (respects_for_each R)
        | apply (respects_for_fold R) | apply (respects_bind R) ]
  | |- forall _, _ => intro
  end.

Ltac respects_script := repeat respects_step.


Section ScriptInvariants.
Context `{RT : Runtime}.


Section AnyEventClass.
(** A class of events that holds every log line and every write to the
    output file. *)
Variable P : event -> bool.
Hypothesis P_log : forall lvl msg, P (EvLog lvl msg) = true.
Hypothesis P_open : P (EvOpenW (realpath OUTPUT)) = true.
Hypothesis P_row : forall r, P (EvWriteRow (realpath OUTPUT) r) = true.

Lemma saveA_extends rem :
  respects (extends P)
    (DeleteLastFiveAudioFiles.save_remaining_details_to_csv rem).
Proof.
  unfold DeleteLastFiveAudioFiles.save_remaining_details_to_csv.
  respects_script; apply extends_emit; auto.
Qed.

Lemma saveB_extends rem :
  respects (extends P)
    (ProcessAudioFiles.save_remaining_details_to_csv rem).
Proof.
  unfold ProcessAudioFiles.save_remaining_details_to_csv.
  respects_script; apply extends_emit; auto.
Qed.

Lemma process_one_extends acc r :
  respects (extends P) (ProcessAudioFiles.process_one acc r).
Proof.
  unfold ProcessAudioFiles.process_one.
  respects_script; first [apply extends_emit; auto | apply extends_silent].
Qed.

Lemma process_audio_files_extends csv :
  respects (extends P) (ProcessAudioFiles.process_audio_files csv).
Proof.
  unfold ProcessAudioFiles.process_audio_files.
  repeat first [apply saveB_extends | apply process_one_extends | respects_step];
    apply extends_emit; auto.
Qed.

Hypothesis P_delete : forall ids rt, P (EvDelete ids rt) = true.

Lemma delete_one_extends r :
  respects (extends P) (DeleteLastFiveAudioFiles.delete_one r).
Proof.
  unfold DeleteLastFiveAudioFiles.delete_one.
  respects_script; first [apply extends_emit; auto | apply extends_silent].
Qed.

Lemma delete_audio_files_extends csv :
  respects (extends P) (DeleteLastFiveAudioFiles.delete_audio_files csv).
Proof.
  unfold DeleteLastFiveAudioFiles.delete_audio_files.
  repeat first [apply saveA_extends | apply delete_one_extends | respects_step];
    apply extends_emit; auto.
Qed.
End AnyEventClass.

Lemma process_audio_files_same_remote csv :
  respects same_remote (ProcessAudioFiles.process_audio_files csv).
Proof.
  unfold ProcessAudioFiles.process_audio_files,
    ProcessAudioFiles.save_remaining_details_to_csv,
    ProcessAudioFiles.process_one.
  respects_script; reflexivity.
Qed.
End ScriptInvariants.

(** ** Policy A, statement by statement *)


Section PolicyA.
Context `{RT : Runtime}.
Import DeleteLastFiveAudioFiles.


Lemma emit_all_app evs1 evs2 w :
  emit_all (evs1 ++ evs2) w = emit_all evs2 (emit_all evs1 w).
Proof. unfold emit_all. apply fold_left_app. Qed.

Lemma emit_all_journal evs w : journal (emit_all evs w) = journal w ++ evs.
Proof.
  revert w. induction evs as [|e evs IH]; intros w; simpl.
  - by rewrite app_nil_r.
  - rewrite IH. unfold emit. simpl. by rewrite <- app_assoc.
Qed.

Lemma emit_all_files evs w : files (emit_all evs w) = replay evs (files w).
Proof.
  revert w. induction evs as [|e evs IH]; intros w; simpl; [reflexivity|].
  rewrite IH. reflexivity.
Qed.

Lemma emit_all_remote evs w : remote (emit_all evs w) = remote w.
Proof.
  revert w. induction evs as [|e evs IH]; intros w; simpl; [reflexivity|].
  rewrite IH. reflexivity.
Qed.

Lemma replay_write_rows f rows fs :
  replay (map (EvWriteRow f) rows) fs = alter (fun old => old ++ rows) f fs.
Proof.
  revert fs. induction rows as [|r rows IH]; intros fs.
  - simpl. apply map_eq. intros k. rewrite lookup_alter.
    case_decide; [|reflexivity]. subst k.
    destruct (fs !! f); simpl; [by rewrite app_nil_r | reflexivity].
  - unfold replay. simpl. fold (replay (map (EvWriteRow f) rows)).
    rewrite IH. apply map_eq. intros k. rewrite !lookup_alter.
    case_decide; [|reflexivity]. subst k.
    rewrite decide_True by reflexivity.
    destruct (fs !! f); simpl; [by rewrite <- app_assoc | reflexivity].
Qed.

(** *** Writing the record *)


Lemma write_rows_run f (rem : list row) w :
  Forall (fun r => length r = 2%nat) rem ->
  for_each rem (fun detail =>
    d0 ← index detail 0; d1 ← index detail 1; writerow f [d0; d1]) w
  = (emit_all (map (EvWriteRow f) rem) w, inr tt).
Proof.
  intros H. revert w. induction H as [|r rem Hr _ IH]; intros w.
  - reflexivity.
  - destruct r as [|a [|b [|c r]]]; try discriminate Hr.
    simpl. rewrite run_bind. simpl. apply IH.
Qed.

Lemma save_run rem w :
  Forall (fun r => length r = 2%nat) rem ->
  save_remaining_details_to_csv rem w = (emit_all (save_events rem) w, inr tt).
Proof.
  intros H. unfold save_remaining_details_to_csv, try_except.
  rewrite run_bind. unfold open_w at 1. rewrite run_bind.
  unfold writerow at 1. rewrite run_bind.
  rewrite (write_rows_run _ _ _ H). unfold log.
  unfold save_events. f_equal.
  change (?a :: ?b :: ?l ++ [?c]) with ([a; b] ++ l ++ [c]).
  rewrite !emit_all_app. reflexivity.
Qed.

Lemma save_events_files rem fs :
  replay (save_events rem) fs = <[realpath OUTPUT := HEADER :: rem]> fs.
Proof.
  unfold save_events.
  change (?a :: ?b :: ?l ++ [?c]) with ([a; b] ++ l ++ [c]).
  rewrite !replay_app, replay_write_rows. simpl.
  apply map_eq. intros k. rewrite lookup_alter.
  case_decide.
  - subst k. rewrite lookup_alter, decide_True by reflexivity.
    rewrite !lookup_insert_eq. reflexivity.
  - rewrite lookup_alter, decide_False by assumption.
    rewrite !lookup_insert_ne by assumption. reflexivity.
Qed.

(** [save_remaining_details_to_csv] catches what it raises. *)
Lemma save_returns rem w : (save_remaining_details_to_csv rem w).2 = inr tt.
Proof.
  unfold save_remaining_details_to_csv, try_except.
  match goal with |- (match ?b with _ => _ end).2 = _ => destruct b as [w1 [e|[]]] end;
    reflexivity.
Qed.

(** The first effect of [save_remaining_details_to_csv] opens the output
    file, and no later one reaches the remote store. *)
Lemma save_opens_first rem w :
  exists evs,
    journal (save_remaining_details_to_csv rem w).1
      = journal w ++ EvOpenW (realpath OUTPUT) :: evs /\
    files (save_remaining_details_to_csv rem w).1
      = replay (EvOpenW (realpath OUTPUT) :: evs) (files w) /\
    forallb not_delete evs = true.
Proof.
  set (k := fun csvfile : string =>
    writerow csvfile ["Filename"; "Created At"];;
    for_each rem (fun detail =>
      d0 ← index detail 0; d1 ← index detail 1; writerow csvfile [d0; d1]);;
    log INFO ("Remaining audio file details saved to " +:+ OUTPUT)).
  set (h := fun e => log ERROR
    ("Error writing remaining audio file details to CSV: " +:+ exn_str e)).
  assert (Hk : respects (extends not_delete)
                 (try_except (k (realpath OUTPUT)) is_Exception h)).
  { unfold k, h. respects_script; apply extends_emit; reflexivity. }
  destruct (Hk (emit (EvOpenW (realpath OUTPUT)) w)) as (evs & J & F & HP).
  exists evs. repeat split; [| |exact HP].
  - etransitivity; [exact J|]. simpl. by rewrite <- app_assoc.
  - etransitivity; [exact F|]. reflexivity.
Qed.

(** *** The deletion pass *)

Lemma delete_one_run filename rest w :
  exists w' lvl msg,
    delete_one (filename :: rest) w = (w', inr tt) /\
    journal w' = journal w ++ [EvDelete [filename] "video"; EvLog lvl msg] /\
    files w' = files w.
Proof.
  unfold delete_one. simpl. rewrite run_bind. simpl.
  unfold try_except. rewrite run_bind.
  unfold api_delete_resources. cbv zeta.
  destruct (delete_resources _ _ _) as [rm [body|msg]].
  - destruct (bool_decide _); eexists _, _, _; (split; [reflexivity|]);
      simpl; rewrite <- app_assoc; auto.
  - simpl. eexists _, _, _. split; [reflexivity|].
    simpl. rewrite <- app_assoc. auto.
Qed.

Lemma delete_loop_run (rows : list row) w :
  Forall (fun r => r <> []) rows ->
  exists w' evs,
    for_each rows delete_one w = (w', inr tt) /\
    journal w' = journal w ++ evs /\
    files w' = files w /\
    filter (fun e => is_delete e = true) evs
      = map (fun r => EvDelete [first_column r] "video") rows /\
    forallb not_write evs = true.
Proof.
  intros H. revert w. induction H as [|r rows Hr _ IH]; intros w.
  - exists w, []. simpl. rewrite app_nil_r. auto.
  - destruct r as [|filename rest]; [done|].
    destruct (delete_one_run filename rest w) as (w1 & lvl & msg & E1 & J1 & F1).
    destruct (IH w1) as (w2 & evs & E2 & J2 & F2 & D2 & W2).
    exists w2, (EvDelete [filename] "video" :: EvLog lvl msg :: evs).
    simpl for_each. rewrite (run_bind_inr _ _ _ _ _ E1).
    split; [exact E2|]. split; [rewrite J2, J1, <- app_assoc; reflexivity|].
    split; [congruence|]. split; [|exact W2].
    rewrite filter_cons_True by reflexivity.
    rewrite filter_cons_False by discriminate.
    simpl. by rewrite D2.
Qed.
End PolicyA.

(** ** Policy A, the whole run *)

Section PolicyARun.
Context `{RT : Runtime}.
Import DeleteLastFiveAudioFiles.


Lemma try_except_inr {A} (body : M A) catches handler w w' a :
  body w = (w', inr a) -> try_except body catches handler w = (w', inr a).
Proof. intros H. unfold try_except. rewrite H. reflexivity. Qed.

(** No exception leaves [delete_audio_files]. *)
Lemma delete_audio_files_returns csv w : (delete_audio_files csv w).2 = inr tt.
Proof.
  unfold delete_audio_files, try_except.
  match goal with |- (match ?b with _ => _ end).2 = _ => destruct b as [w1 [e|[]]] end;
    reflexivity.
Qed.

(** A record with at least one row, each of two columns: the run issues
    one request for each of the last five rows, in order, then writes the
    rows before them. *)
Lemma delete_audio_files_run csv header records w :
  files w !! realpath csv = Some (header :: records) ->
  records <> [] ->
  Forall (fun r => length r = 2%nat) records ->
  exists w' evs,
    delete_audio_files csv w = (w', inr tt) /\
    journal w' = journal w ++ warning_events records ++ evs ++
                 save_events (remaining_files_of records) /\
    filter (fun e => is_delete e = true) evs
      = map (fun r => EvDelete [first_column r] "video")
            (files_to_delete_of records) /\
    forallb not_write evs = true /\
    files w' = <[realpath OUTPUT := HEADER :: remaining_files_of records]> (files w).
Proof.
  intros Hf Hne H2.
  set (w1 := emit_all (warning_events records) w).
  assert (Hdel : Forall (fun r : row => r <> []) (files_to_delete_of records)).
  { rewrite files_to_delete_of_drop. apply Forall_drop.
    eapply Forall_impl; [exact H2|]. intros r Hr ->. discriminate. }
  assert (Hrem : Forall (fun r : row => length r = 2%nat) (remaining_files_of records)).
  { rewrite remaining_files_of_take. by apply Forall_take. }
  destruct (delete_loop_run _ w1 Hdel) as (w2 & evs & E2 & J2 & F2 & D2 & W2).
  exists (emit_all (save_events (remaining_files_of records)) w2), evs.
  split.
  { unfold delete_audio_files. apply try_except_inr.
    rewrite run_bind. unfold os_path_exists.
    rewrite Hf, bool_decide_eq_true_2 by eauto. cbn [negb].
    rewrite run_bind. unfold read_csv. rewrite Hf.
    replace (length (header :: records) <=? 1)%nat with false
      by (destruct records; [done | reflexivity]).
    rewrite slice_from_1. rewrite run_bind.
    replace ((if (length records <? 5)%nat then
                log WARNING
                  "The CSV file has fewer than 5 audio files. Deleting all available files."
              else mret tt) w) with (w1, @inr exn unit tt)
      by (unfold w1, warning_events; destruct (length records <? 5)%nat; reflexivity).
    rewrite run_bind, E2. apply save_run. exact Hrem. }
  split.
  { rewrite emit_all_journal, J2. unfold w1. rewrite emit_all_journal.
    by rewrite <- !app_assoc. }
  split; [exact D2|]. split; [exact W2|].
  rewrite emit_all_files, F2. unfold w1. rewrite emit_all_files.
  rewrite save_events_files. f_equal.
  unfold warning_events. destruct (length records <? 5)%nat; reflexivity.
Qed.

(** An input file with at most its header row: the run logs an error
    and returns, with no other effect. *)
Lemma delete_audio_files_short csv rows w :
  files w !! realpath csv = Some rows ->
  (length rows <= 1)%nat ->
  delete_audio_files csv w
  = (emit (EvLog ERROR "CSV file does not contain enough data to process.") w,
     inr tt).
Proof.
  intros Hf Hlen. unfold delete_audio_files. apply try_except_inr.
  rewrite run_bind. unfold os_path_exists.
  rewrite Hf, bool_decide_eq_true_2 by eauto. cbn [negb].
  rewrite run_bind. unfold read_csv. rewrite Hf.
  replace (length rows <=? 1)%nat with true
    by (symmetry; apply Nat.leb_le; exact Hlen).
  reflexivity.
Qed.

(** The effects of a run are those of the deletion pass, which writes no
    file, followed by those of the rewrite, which begins by opening the
    output file and sends nothing to the remote store. *)
Lemma delete_audio_files_phases csv w :
  exists pass rewrite_,
    journal (delete_audio_files csv w).1 = journal w ++ pass ++ rewrite_ /\
    files (delete_audio_files csv w).1 = replay (pass ++ rewrite_) (files w) /\
    forallb not_write pass = true /\
    forallb not_delete rewrite_ = true /\
    (rewrite_ = [] \/ exists evs, rewrite_ = EvOpenW (realpath OUTPUT) :: evs).
Proof.
  (* a run that ends with effects [evs], none of them a write *)
  assert (Hdone : forall w' : World, extends not_write w w' ->
    exists pass rewrite_,
      journal w' = journal w ++ pass ++ rewrite_ /\
      files w' = replay (pass ++ rewrite_) (files w) /\
      forallb not_write pass = true /\
      forallb not_delete rewrite_ = true /\
      (rewrite_ = [] \/ exists evs, rewrite_ = EvOpenW (realpath OUTPUT) :: evs)).
  { intros w' (evs & J & F & HP). exists evs, [].
    rewrite app_nil_r. auto 6. }
  assert (Hlog : forall lvl msg (w0 : World), extends not_write w0 (emit (EvLog lvl msg) w0)).
  { intros. by apply extends_emit. }
  unfold delete_audio_files, try_except.
  rewrite run_bind. unfold os_path_exists. cbn beta iota.
  destruct (negb _).
  { unfold log. cbn [fst]. apply Hdone, Hlog. }
  rewrite run_bind. unfold read_csv.
  destruct (files w !! realpath csv) as [reader|].
  2:{ unfold log. cbn [fst is_Exception]. apply Hdone, Hlog. }
  destruct (length reader <=? 1)%nat.
  { unfold log. cbn [fst]. apply Hdone, Hlog. }
  set (records := slice_from 1 reader).
  rewrite run_bind.
  set (warn := if (length records <? 5)%nat then _ else _).
  assert (Hwarn : exists w1, warn w = (w1, inr tt) /\ extends not_write w w1).
  { unfold warn. destruct (length records <? 5)%nat.
    - eexists. split; [reflexivity|]. apply Hlog.
    - eexists. split; [reflexivity|]. reflexivity. }
  destruct Hwarn as (w1 & -> & Hw1).
  rewrite run_bind.
  pose proof (respects_for_each (extends not_write)
                (files_to_delete_of records) delete_one) as Hloop.
  specialize (Hloop (fun r => delete_one_extends not_write
                (fun _ _ => eq_refl) (fun _ _ => eq_refl) r) w1).
  destruct (for_each (files_to_delete_of records) delete_one w1)
    as [w2 [e|[]]]; cbn [fst] in Hloop.
  { unfold log. cbn [fst is_Exception]. apply Hdone.
    etransitivity; [exact Hw1|].
    etransitivity; [exact Hloop|]. apply Hlog. }
  assert (Hpass : extends not_write w w2) by (etransitivity; eassumption).
  destruct Hpass as (pass & J & F & HP).
  destruct (save_opens_first (remaining_files_of records) w2) as (evs & JS & FS & HS).
  pose proof (save_returns (remaining_files_of records) w2) as Hret.
  destruct (save_remaining_details_to_csv (remaining_files_of records) w2)
    as [w3 [e|[]]]; [discriminate Hret|].
  cbn [fst] in *.
  exists pass, (EvOpenW (realpath OUTPUT) :: evs).
  split; [rewrite JS, J, <- app_assoc; reflexivity|].
  split; [rewrite FS, F, replay_app; reflexivity|].
  split; [exact HP|]. split; [exact HS|]. right. eauto.
Qed.
End PolicyARun.

(** ** Policy B, row by row *)

Section PolicyB.
Context `{RT : Runtime}.
Import ProcessAudioFiles.


Lemma process_one_allowlisted acc filename created_str extra t w :
  strptime created_str = inr t ->
  allowlisted filename = true ->
  process_one acc (filename :: created_str :: extra) w
  = (emit (SKIPPING filename) w,
     inr (acc.1, acc.2 ++ [[filename; created_str]])).
Proof.
  intros Ht Ha. destruct acc as [d k]. unfold process_one.
  rewrite index_cons_0, run_ret_bind, index_cons_1, run_ret_bind.
  unfold datetime_strptime. rewrite Ht, run_ret_bind.
  unfold allowlisted in Ha. rewrite Ha. reflexivity.
Qed.

Lemma process_one_other acc filename created_str extra t w :
  strptime created_str = inr t ->
  allowlisted filename = false ->
  process_one acc (filename :: created_str :: extra) w
  = if clock (ticks w) - timedelta_days 30 <? 0 then
      (tick w, inl OverflowError)
    else if t <? clock (ticks w) - timedelta_days 30 then
      (emit (WOULD_DELETE filename) (tick w), inr (acc.1 ++ [filename], acc.2))
    else
      (tick w, inr (acc.1, acc.2 ++ [[filename; created_str]])).
Proof.
  intros Ht Ha. destruct acc as [d k]. unfold process_one.
  rewrite index_cons_0, run_ret_bind, index_cons_1, run_ret_bind.
  unfold datetime_strptime. rewrite Ht, run_ret_bind.
  unfold allowlisted in Ha. rewrite Ha.
  rewrite run_bind. unfold datetime_now. rewrite run_bind.
  unfold datetime_sub_days. fold (tick w).
  destruct (clock (ticks w) - timedelta_days 30 <? 0); [reflexivity|].
  cbn [mret M_ret]. destruct (t <? _); reflexivity.
Qed.

Lemma process_one_malformed acc r w :
  malformed r = true -> exists e, process_one acc r w = (w, inl e).
Proof.
  intros Hm. destruct acc as [d k]. unfold process_one.
  destruct r as [|filename [|created_str extra]].
  - eexists. reflexivity.
  - eexists. reflexivity.
  - simpl in Hm.
    rewrite index_cons_0, run_ret_bind, index_cons_1, run_ret_bind.
    unfold datetime_strptime. destruct (strptime created_str); [|discriminate].
    eexists. reflexivity.
Qed.

(** A row that [process_one] accepts has its two columns and a
    timestamp that parses. *)
Lemma process_one_inr acc r w w' acc' :
  process_one acc r w = (w', inr acc') ->
  exists filename created_str extra t,
    r = filename :: created_str :: extra /\ strptime created_str = inr t.
Proof.
  intros H. destruct (malformed r) eqn:Hm.
  - destruct (process_one_malformed acc r w Hm) as [e He]. congruence.
  - destruct r as [|filename [|created_str extra]]; try discriminate Hm.
    simpl in Hm. destruct (strptime created_str) eqn:Ht; [discriminate|].
    eauto 6.
Qed.


(** The loop only appends to its two lists. *)
Lemma process_one_prepend acc r w :
  process_one acc r w = prepend acc (process_one ([], []) r w).
Proof.
  destruct acc as [d k].
  destruct r as [|filename [|created_str extra]]; [reflexivity..|].
  destruct (strptime created_str) as [msg|t] eqn:Ht.
  - unfold process_one.
    rewrite !index_cons_0, !run_ret_bind, !index_cons_1, !run_ret_bind.
    unfold datetime_strptime. rewrite Ht. reflexivity.
  - destruct (allowlisted filename) eqn:Ha.
    + rewrite !(process_one_allowlisted _ _ _ _ _ _ Ht Ha).
      cbn [prepend fst snd app]. by rewrite app_nil_r.
    + rewrite !(process_one_other _ _ _ _ _ _ Ht Ha).
      destruct (_ <? 0); [reflexivity|].
      destruct (t <? _); cbn [prepend fst snd app]; by rewrite app_nil_r.
Qed.

Lemma prepend_prepend a1 a2 r :
  prepend a1 (prepend a2 r) = prepend (a1.1 ++ a2.1, a1.2 ++ a2.2) r.
Proof.
  destruct r as [w' [e|[d k]]]; simpl; [reflexivity|].
  by rewrite !app_assoc.
Qed.

Lemma process_rows_prepend rows acc w :
  for_fold rows process_one acc w
  = prepend acc (for_fold rows process_one ([], []) w).
Proof.
  revert acc w. induction rows as [|r rows IH]; intros acc w.
  - destruct acc. simpl. by rewrite !app_nil_r.
  - rewrite !for_fold_cons, !run_bind.
    rewrite (process_one_prepend acc).
    destruct (process_one ([], []) r w) as [w1 [e|[d1 k1]]]; [reflexivity|].
    cbn [prepend]. rewrite IH, (IH (d1, k1)), prepend_prepend. reflexivity.
Qed.

(** The run of the loop over [pre ++ r :: post], cut at the row [r]. *)
Lemma process_rows_split pre r post w w' del keep :
  for_fold (pre ++ r :: post) process_one ([], []) w = (w', inr (del, keep)) ->
  exists w1 d1 k1 w2 dr kr d2 k2,
    for_fold pre process_one ([], []) w = (w1, inr (d1, k1)) /\
    process_one ([], []) r w1 = (w2, inr (dr, kr)) /\
    for_fold post process_one ([], []) w2 = (w', inr (d2, k2)) /\
    del = d1 ++ dr ++ d2 /\ keep = k1 ++ kr ++ k2.
Proof.
  rewrite for_fold_app, run_bind.
  destruct (for_fold pre process_one ([], []) w) as [w1 [e|[d1 k1]]];
    [discriminate|].
  rewrite for_fold_cons, run_bind, process_one_prepend.
  destruct (process_one ([], []) r w1) as [w2 [e|[dr kr]]] eqn:Er;
    [discriminate|].
  cbn [prepend]. rewrite process_rows_prepend.
  destruct (for_fold post process_one ([], []) w2) as [w3 [e|[d2 k2]]] eqn:Ep;
    [discriminate|].
  cbn [prepend fst snd]. intros [= <- <- <-].
  exists w1, d1, k1, w2, dr, kr, d2, k2.
  rewrite <- !app_assoc. auto.
Qed.

(** A malformed row anywhere makes the loop raise. *)
Lemma process_rows_malformed rows acc w :
  Exists (fun r => malformed r = true) rows ->
  exists w' e, for_fold rows process_one acc w = (w', inl e).
Proof.
  intros H. revert acc w. induction H as [r rows Hr|r rows _ IH]; intros acc w.
  - destruct (process_one_malformed acc r w Hr) as [e He].
    exists w, e. rewrite for_fold_cons, run_bind, He. reflexivity.
  - rewrite for_fold_cons, run_bind.
    destruct (process_one acc r w) as [w1 [e|acc1]]; [eauto|]. apply IH.
Qed.
End PolicyB.

(** ** Policy B, the whole run *)

Section PolicyBRun.
Context `{RT : Runtime}.
Import ProcessAudioFiles.

Lemma str_in_In x l : str_in x l = true <-> In x l.
Proof.
  unfold str_in. rewrite existsb_exists. split.
  - intros (y & Hy & E). apply String.eqb_eq in E. by subst.
  - intros H. exists x. split; [exact H | apply String.eqb_refl].
Qed.

Lemma not_str_in_In x l : str_in x l = false <-> ~ In x l.
Proof.
  rewrite <- str_in_In. destruct (str_in x l); split; done.
Qed.

(** A row whose first column is a value of the allow-list, in a loop
    that completes: the row goes to [remaining_files], whatever its
    timestamp and the clock. *)
Lemma allowlisted_row_kept pre filename created_str extra post w w' del keep :
  allowlisted filename = true ->
  for_fold (pre ++ (filename :: created_str :: extra) :: post)
    process_one ([], []) w = (w', inr (del, keep)) ->
  exists w1 d1 k1 d2 k2,
    for_fold pre process_one ([], []) w = (w1, inr (d1, k1)) /\
    for_fold post process_one ([], []) (emit (SKIPPING filename) w1)
      = (w', inr (d2, k2)) /\
    del = d1 ++ d2 /\
    keep = k1 ++ [filename; created_str] :: k2.
Proof.
  intros Ha H.
  destruct (process_rows_split _ _ _ _ _ _ _ H)
    as (w1 & d1 & k1 & w2 & dr & kr & d2 & k2 & Hpre & Hr & Hpost & -> & ->).
  destruct (process_one_inr _ _ _ _ _ Hr) as (f & c & ex & t & [= <- <- <-] & Ht).
  rewrite (process_one_allowlisted _ _ _ _ _ _ Ht Ha) in Hr.
  injection Hr as <- <- <-.
  exists w1, d1, k1, d2, k2. auto.
Qed.

(** Every identifier that the loop marks for deletion has its line of
    intent in the journal. *)
Lemma marked_is_logged rows acc w w' del keep :
  for_fold rows process_one acc w = (w', inr (del, keep)) ->
  exists evs marked,
    journal w' = journal w ++ evs /\
    del = acc.1 ++ marked /\
    Forall (fun f => In (WOULD_DELETE f) evs) marked.
Proof.
  revert acc w. induction rows as [|r rows IH]; intros acc w H.
  - destruct acc as [d k]. injection H as <- <- <-.
    exists [], []. cbn [fst]. by rewrite !app_nil_r.
  - rewrite for_fold_cons, run_bind in H.
    destruct (process_one acc r w) as [w1 [e|acc1]] eqn:Er; [discriminate|].
    destruct (process_one_inr _ _ _ _ _ Er) as (f & c & ex & t & -> & Ht).
    destruct (IH _ _ H) as (evs & marked & J & D & L).
    destruct (allowlisted f) eqn:Ha.
    + rewrite (process_one_allowlisted _ _ _ _ _ _ Ht Ha) in Er.
      injection Er as <- <-. exists (SKIPPING f :: evs), marked.
      split; [rewrite J; unfold emit; simpl; by rewrite <- app_assoc|].
      split; [exact D|].
      eapply Forall_impl; [exact L|]. intros x Hx. by right.
    + rewrite (process_one_other _ _ _ _ _ _ Ht Ha) in Er.
      destruct (_ <? 0); [discriminate|].
      destruct (t <? _); injection Er as <- <-.
      * exists (WOULD_DELETE f :: evs), (f :: marked).
        split; [rewrite J; unfold emit, tick; simpl; by rewrite <- app_assoc|].
        split; [rewrite D; simpl; by rewrite <- app_assoc|].
        constructor; [by left|].
        eapply Forall_impl; [exact L|]. intros x Hx. by right.
      * exists evs, marked. auto.
Qed.

(** An input file with a malformed row: the loop raises, the handler of
    the script logs the exception, and no file is written. *)
Lemma process_audio_files_malformed csv header records w :
  files w !! realpath csv = Some (header :: records) ->
  Exists (fun r => malformed r = true) records ->
  exists w1 e evs,
    process_audio_files csv w
    = (emit (EvLog ERROR ("Unexpected error while processing audio files: "
                          +:+ exn_str e)) w1, inr tt) /\
    journal w1 = journal w ++ evs /\
    forallb not_write evs = true /\
    files w1 = files w.
Proof.
  intros Hf Hm.
  destruct (process_rows_malformed records ([], []) w Hm) as (w1 & e & Hloop).
  pose proof (respects_for_fold (extends not_write) records process_one ([], [])
                (fun acc r => process_one_extends not_write
                   (fun _ _ => eq_refl) acc r) w) as Hext.
  rewrite Hloop in Hext. cbn [fst] in Hext.
  destruct Hext as (evs & J & F & HP).
  exists w1, e, evs. split; [|split; [exact J|split; [exact HP|]]].
  - unfold process_audio_files, try_except.
    rewrite run_bind. unfold os_path_exists.
    rewrite Hf, bool_decide_eq_true_2 by eauto. cbn [negb].
    rewrite run_bind. unfold read_csv. rewrite Hf.
    replace (length (header :: records) <=? 1)%nat with false
      by (destruct records; [by apply Exists_nil in Hm | reflexivity]).
    rewrite slice_from_1, run_bind, Hloop. reflexivity.
  - rewrite F. apply replay_no_write. exact HP.
Qed.

(** Events that write nothing but the output file leave every other
    file as it was. *)
Lemma replay_only_output evs fs f :
  forallb only_output evs = true ->
  f <> realpath OUTPUT ->
  replay evs fs !! f = fs !! f.
Proof.
  intros H Hf. revert fs. induction evs as [|e evs IH]; intros fs; [reflexivity|].
  simpl in H. apply andb_true_iff in H as [He H].
  unfold replay. simpl. fold (replay evs (apply_event fs e)).
  rewrite IH by assumption.
  destruct e as [| |g|g r]; simpl in *; try reflexivity;
    apply bool_decide_eq_true_1 in He; subst g.
  - by apply lookup_insert_ne.
  - rewrite lookup_alter. by rewrite decide_False.
Qed.
End PolicyBRun.

(** * The claims of the retention specification *)

(** ** Policy A: the partition *)

(** C1.  Policy A is an order-preserving partition of the record: the rows
    kept followed by the rows to delete are the record itself; a record of
    at least five rows has exactly five rows to delete, which are then its
    last five in their order, after the rows kept; a record of fewer than
    five rows is deleted whole and nothing is kept. *)
Theorem tail5_order_preserving_partition (audio_details : list row) :
  remaining_files_of audio_details ++ files_to_delete_of audio_details
    = audio_details /\
  ((5 <= length audio_details)%nat ->
     length (files_to_delete_of audio_details) = 5%nat) /\
  ((length audio_details < 5)%nat ->
     files_to_delete_of audio_details = audio_details /\
     remaining_files_of audio_details = []).
Proof.
  split; [apply tail5_app|].
  rewrite files_to_delete_of_drop, remaining_files_of_take. split; intros H.
  - rewrite length_drop. lia.
  - replace (length audio_details - 5)%nat with 0%nat by lia.
    rewrite drop_0, take_0. auto.
Qed.

Lemma tail5_order_preserving_partition_witness :
  ((5 <= length Demo.seven)%nat /\
   length (files_to_delete_of Demo.seven) = 5%nat) /\
  ((length Demo.three < 5)%nat /\
   files_to_delete_of Demo.three = Demo.three /\
   remaining_files_of Demo.three = []).
Proof.
  split.
  - assert (H : (5 <= length Demo.seven)%nat) by (simpl; lia).
    split; [exact H|].
    exact (proj1 (proj2 (tail5_order_preserving_partition Demo.seven)) H).
  - assert (H : (length Demo.three < 5)%nat) by (simpl; lia).
    split; [exact H|].
    exact (proj2 (proj2 (tail5_order_preserving_partition Demo.three)) H).
Defined.

(** ** Policy B: selection *)

Section PolicyBClaims.
Context `{RT : Runtime}.
Import ProcessAudioFiles.

(** C2.  In a run of Policy B's loop that completes, a row whose
    identifier is one of the values of [BACKGROUND_MUSIC_URLS] is
    appended to [remaining_files] and adds nothing to [files_to_delete]:
    the lists are those of the rows before it, the row, and those of the
    rows after it.  Neither the timestamp of the row nor the clock
    takes part, so this holds at every age. *)
Theorem allowlisted_record_kept
    pre filename created_str extra post (w w' : World) del keep :
  In filename (dict_values BACKGROUND_MUSIC_URLS) ->
  for_fold (pre ++ (filename :: created_str :: extra) :: post)
    process_one ([], []) w = (w', inr (del, keep)) ->
  exists w1 d1 k1 d2 k2,
    for_fold pre process_one ([], []) w = (w1, inr (d1, k1)) /\
    for_fold post process_one ([], []) (emit (SKIPPING filename) w1)
      = (w', inr (d2, k2)) /\
    del = d1 ++ d2 /\
    keep = k1 ++ [filename; created_str] :: k2.
Proof.
  intros Hin. apply allowlisted_row_kept. by apply str_in_In.
Qed.

(** C3.  In a run of Policy B's loop that completes, a row whose
    identifier is not a value of the allow-list has a timestamp that
    parsed, and with [now] the clock as read for this row: if
    [now - created_at] exceeds 30 days the identifier is appended to
    [files_to_delete] and the row is not kept; otherwise the row is
    appended to [remaining_files] and nothing is marked. *)
Theorem other_record_deleted_iff_older_than_30_days
    pre filename created_str extra post (w w' : World) del keep :
  ~ In filename (dict_values BACKGROUND_MUSIC_URLS) ->
  for_fold (pre ++ (filename :: created_str :: extra) :: post)
    process_one ([], []) w = (w', inr (del, keep)) ->
  exists w1 d1 k1 w2 d2 k2 created_at,
    for_fold pre process_one ([], []) w = (w1, inr (d1, k1)) /\
    strptime created_str = inr created_at /\
    for_fold post process_one ([], []) w2 = (w', inr (d2, k2)) /\
    if timedelta_days 30 <? clock (ticks w1) - created_at then
      del = d1 ++ filename :: d2 /\ keep = k1 ++ k2
    else
      del = d1 ++ d2 /\ keep = k1 ++ [filename; created_str] :: k2.
Proof.
  intros Hin H. apply not_str_in_In in Hin.
  destruct (process_rows_split _ _ _ _ _ _ _ H)
    as (w1 & d1 & k1 & w2 & dr & kr & d2 & k2 & Hpre & Hr & Hpost & -> & ->).
  destruct (process_one_inr _ _ _ _ _ Hr) as (f & c & ex & t & [= <- <- <-] & Ht).
  rewrite (process_one_other _ _ _ _ _ _ Ht Hin) in Hr.
  exists w1, d1, k1, w2, d2, k2, t. repeat (split; [assumption|]).
  destruct (_ <? 0); [discriminate|].
  destruct (t <? _) eqn:Eold.
  - apply Z.ltb_lt in Eold.
    replace (timedelta_days 30 <? clock (ticks w1) - t) with true
      by (symmetry; apply Z.ltb_lt; lia).
    injection Hr as <- <- <-. auto.
  - apply Z.ltb_ge in Eold.
    replace (timedelta_days 30 <? clock (ticks w1) - t) with false
      by (symmetry; apply Z.ltb_ge; lia).
    injection Hr as <- <- <-. auto.
Qed.

(** C10.  The allow-list maps ["none"] to the empty string, so the empty
    string is one of its values, and in a run of Policy B's loop that
    completes a row whose identifier is the empty string is appended to
    [remaining_files] and adds nothing to [files_to_delete], at every
    age. *)
Theorem empty_identifier_kept
    pre created_str extra post (w w' : World) del keep :
  for_fold (pre ++ ("" :: created_str :: extra) :: post)
    process_one ([], []) w = (w', inr (del, keep)) ->
  dict_get BACKGROUND_MUSIC_URLS "none" = Some "" /\
  In "" (dict_values BACKGROUND_MUSIC_URLS) /\
  exists w1 d1 k1 d2 k2,
    for_fold pre process_one ([], []) w = (w1, inr (d1, k1)) /\
    for_fold post process_one ([], []) (emit (SKIPPING "") w1)
      = (w', inr (d2, k2)) /\
    del = d1 ++ d2 /\
    keep = k1 ++ [""; created_str] :: k2.
Proof.
  intros H. split; [reflexivity|]. split; [left; reflexivity|].
  revert H. apply allowlisted_row_kept. reflexivity.
Qed.

(** C4.  A run of Policy B leaves the remote store as it was and sends
    it no delete request: every effect of the run is a log line or a
    write to the output file.  What the loop marks for deletion is only
    reported: when the loop completes with the list [files_to_delete],
    each identifier in it has its line "would be deleted" among the
    effects of the loop. *)
Theorem policyB_issues_no_delete csv (rows : list row) (w : World) :
  remote (process_audio_files csv w).1 = remote w /\
  (exists evs,
     journal (process_audio_files csv w).1 = journal w ++ evs /\
     forallb (fun e => not_delete e && only_output e) evs = true) /\
  match for_fold rows process_one ([], []) w with
  | (w', inr (files_to_delete, _)) =>
      exists evs,
        journal w' = journal w ++ evs /\
        Forall (fun f => In (WOULD_DELETE f) evs) files_to_delete
  | (_, inl _) => True
  end.
Proof.
  split; [apply process_audio_files_same_remote|].
  set (P := fun e => not_delete e && only_output e).
  assert (Hopen : P (EvOpenW (realpath OUTPUT)) = true).
  { unfold P, only_output. simpl. by rewrite bool_decide_eq_true_2. }
  assert (Hrow : forall r, P (EvWriteRow (realpath OUTPUT) r) = true).
  { intros r. unfold P, only_output. simpl. by rewrite bool_decide_eq_true_2. }
  destruct (process_audio_files_extends P (fun _ _ => eq_refl) Hopen Hrow csv w)
    as (evs & J & _ & HP).
  split; [eauto|].
  destruct (for_fold rows process_one ([], []) w) as [w' [e|[del keep]]] eqn:E;
    [exact I|].
  destruct (marked_is_logged _ _ _ _ _ _ E) as (evs' & marked & J' & -> & L).
  eauto.
Qed.

(** C6, as amended.  When the input file of Policy B holds a malformed
    row (fewer than two columns, or a timestamp that does not parse),
    the loop raises, the handler of the script logs the exception, and
    the run ends having written no file: the file system is as before. *)
Theorem policyB_malformed_row_aborts csv header records (w : World) :
  files w !! realpath csv = Some (header :: records) ->
  Exists (fun r => malformed r = true) records ->
  files (process_audio_files csv w).1 = files w /\
  exists evs e,
    journal (process_audio_files csv w).1
      = journal w ++ evs ++
        [EvLog ERROR ("Unexpected error while processing audio files: "
                      +:+ exn_str e)] /\
    forallb not_write evs = true.
Proof.
  intros Hf Hm.
  destruct (process_audio_files_malformed csv header records w Hf Hm)
    as (w1 & e & evs & -> & J & HP & F).
  split; [exact F|]. exists evs, e. split; [|exact HP].
  unfold emit. cbn [fst journal]. rewrite J. by rewrite <- app_assoc.
Qed.
End PolicyBClaims.

(** ** Policy A: deletion and rewrite *)

Section PolicyAClaims.
Context `{RT : Runtime}.
Import DeleteLastFiveAudioFiles.

(** C5, as amended.  For a record with at least one row, each row of
    two columns, and whatever the remote store answers to each request
    (confirmation, another status, or a raised error): the run sends one
    delete request for each of the rows to delete, in their order, and
    the output file then holds the header and exactly the rows kept. *)
Theorem output_reflects_selection csv header records (w : World) :
  files w !! realpath csv = Some (header :: records) ->
  records <> [] ->
  Forall (fun r => length r = 2%nat) records ->
  files (delete_audio_files csv w).1 !! realpath OUTPUT
    = Some (HEADER :: remaining_files_of records) /\
  exists evs,
    journal (delete_audio_files csv w).1 = journal w ++ evs /\
    filter (fun e => is_delete e = true) evs
      = map (fun r => EvDelete [first_column r] "video")
            (files_to_delete_of records).
Proof.
  intros Hf Hne H2.
  destruct (delete_audio_files_run csv header records w Hf Hne H2)
    as (w' & evs & -> & J & D & W & F).
  cbn [fst]. split.
  - rewrite F. apply lookup_insert_eq.
  - eexists. split; [exact J|].
    rewrite !filter_app, D.
    replace (filter _ (warning_events records)) with (@nil event)
      by (unfold warning_events; destruct (_ <? _)%nat; reflexivity).
    replace (filter _ (save_events _)) with (@nil event);
      [by rewrite app_nil_r|].
    unfold save_events.
    rewrite !filter_cons_False, filter_app by discriminate.
    rewrite filter_cons_False by discriminate. rewrite app_nil_r.
    generalize (remaining_files_of records). intros l.
    induction l as [|r l IH]; [reflexivity|].
    simpl map. by rewrite filter_cons_False by discriminate.
Qed.

(** C7, as amended.  No run of Policy A raises.  On a record of one to
    four rows of two columns the run leaves an empty record (the header
    alone) in the output file, and so does a second run after it, on the
    same input or on the output file just written.  On an empty record
    the run sends no request and writes no file: its one effect is the
    error line that the file holds too little data. *)
Theorem small_record_twice csv header records (w : World) :
  files w !! realpath csv = Some (header :: records) ->
  (length records < 5)%nat ->
  Forall (fun r => length r = 2%nat) records ->
  let r1 := delete_audio_files csv w in
  r1.2 = inr tt /\
  match records with
  | [] =>
      r1.1 = emit (EvLog ERROR
               "CSV file does not contain enough data to process.") w
  | _ :: _ =>
      files r1.1 !! realpath OUTPUT = Some [HEADER] /\
      (delete_audio_files csv r1.1).2 = inr tt /\
      files (delete_audio_files csv r1.1).1 !! realpath OUTPUT = Some [HEADER] /\
      (delete_audio_files OUTPUT r1.1).2 = inr tt /\
      files (delete_audio_files OUTPUT r1.1).1 !! realpath OUTPUT = Some [HEADER]
  end.
Proof.
  intros Hf Hlen H2 r1. split; [apply delete_audio_files_returns|].
  destruct records as [|r0 records0] eqn:Erec.
  { unfold r1. rewrite (delete_audio_files_short csv [header] w Hf); [reflexivity|].
    simpl. lia. }
  rewrite <- Erec in *.
  assert (Hne : records <> []) by (rewrite Erec; discriminate).
  assert (Hrem : remaining_files_of records = []).
  { rewrite remaining_files_of_take.
    replace (length records - 5)%nat with 0%nat by lia. apply take_0. }
  destruct (delete_audio_files_run csv header records w Hf Hne H2)
    as (w1 & evs & E1 & _ & _ & _ & F1).
  rewrite Hrem in F1.
  assert (Hout : files w1 !! realpath OUTPUT = Some [HEADER])
    by (rewrite F1; apply lookup_insert_eq).
  assert (Hshort : forall csv2, realpath csv2 = realpath OUTPUT ->
            (delete_audio_files csv2 w1).2 = inr tt /\
            files (delete_audio_files csv2 w1).1 !! realpath OUTPUT
              = Some [HEADER]).
  { intros csv2 E2. split; [apply delete_audio_files_returns|].
    rewrite (delete_audio_files_short csv2 [HEADER] w1);
      [exact Hout | by rewrite E2 | simpl; lia]. }
  unfold r1. rewrite E1. cbn [fst].
  split; [exact Hout|].
  destruct (Hshort OUTPUT eq_refl) as [Hret_out Hfiles_out].
  assert (Hsame : (delete_audio_files csv w1).2 = inr tt /\
            files (delete_audio_files csv w1).1 !! realpath OUTPUT
              = Some [HEADER]).
  { destruct (decide (realpath csv = realpath OUTPUT)) as [Eq|Ne].
    { apply Hshort. exact Eq. }
    split; [apply delete_audio_files_returns|].
    assert (Hf1 : files w1 !! realpath csv = Some (header :: records))
      by (rewrite F1, lookup_insert_ne by congruence; exact Hf).
    destruct (delete_audio_files_run csv header records w1 Hf1 Hne H2)
      as (w2 & evs2 & -> & _ & _ & _ & F2).
    cbn [fst]. rewrite F2, Hrem. apply lookup_insert_eq. }
  destruct Hsame. auto.
Qed.

(** C8.  The effects of a run of Policy A are those of a deletion pass
    followed by those of a rewrite: the pass writes no file, the rewrite
    sends no delete request and, when there is one, begins by opening
    the output file.  So every write comes after every delete request,
    and a run stopped after any number of the effects of the pass has
    left every file as it was before the run. *)
Theorem rewrite_only_after_delete_pass csv (w : World) :
  exists pass rewrite_,
    journal (delete_audio_files csv w).1 = journal w ++ pass ++ rewrite_ /\
    files (delete_audio_files csv w).1 = replay (pass ++ rewrite_) (files w) /\
    forallb not_write pass = true /\
    forallb not_delete rewrite_ = true /\
    (rewrite_ = [] \/ exists evs, rewrite_ = EvOpenW (realpath OUTPUT) :: evs) /\
    forall n, replay (take n pass) (files w) = files w.
Proof.
  destruct (delete_audio_files_phases csv w)
    as (pass & rw & J & F & HP & HR & Hopen).
  exists pass, rw. repeat (split; [assumption|]).
  intros n. apply replay_no_write.
  rewrite <- (take_drop n pass) in HP.
  apply forallb_app_true in HP. tauto.
Qed.
End PolicyAClaims.

(** ** Both policies: the input file *)

(** C9, as amended.  In a run of Policy A or of Policy B, every effect
    that writes a file writes the one named
    [RemainingAudioFileDetails.csv]; so when the input path names another
    file, the input file is after the run as it was before. *)
Theorem input_file_unchanged `{RT : Runtime} csv (w : World) :
  realpath csv <> realpath OUTPUT ->
  (files (DeleteLastFiveAudioFiles.delete_audio_files csv w).1 !! realpath csv
     = files w !! realpath csv /\
   exists evs,
     journal (DeleteLastFiveAudioFiles.delete_audio_files csv w).1
       = journal w ++ evs /\
     forallb only_output evs = true) /\
  (files (ProcessAudioFiles.process_audio_files csv w).1 !! realpath csv
     = files w !! realpath csv /\
   exists evs,
     journal (ProcessAudioFiles.process_audio_files csv w).1
       = journal w ++ evs /\
     forallb only_output evs = true).
Proof.
  intros Hne.
  assert (Hopen : only_output (EvOpenW (realpath OUTPUT)) = true).
  { unfold only_output. simpl. by rewrite bool_decide_eq_true_2. }
  assert (Hrow : forall r, only_output (EvWriteRow (realpath OUTPUT) r) = true).
  { intros r. unfold only_output. simpl. by rewrite bool_decide_eq_true_2. }
  split.
  - destruct (delete_audio_files_extends only_output (fun _ _ => eq_refl)
                Hopen Hrow (fun _ _ => eq_refl) csv w) as (evs & J & F & HP).
    split; [|eauto]. rewrite F. by apply replay_only_output.
  - destruct (process_audio_files_extends only_output (fun _ _ => eq_refl)
                Hopen Hrow csv w) as (evs & J & F & HP).
    split; [|eauto]. rewrite F. by apply replay_only_output.
Qed.

(** ** The claims on the concrete runtime *)

Section Witnesses.
Import ProcessAudioFiles DeleteLastFiveAudioFiles.
Local Existing Instance Demo.runtime.

(** The loop of Policy B on the three records of the second scenario. *)
Lemma scenario2_result :
  (for_fold [Demo.default_row; Demo.jingle_row; Demo.fresh_row]
     process_one ([], []) Demo.world_empty).2
  = inr (["jingle"], [Demo.default_row; Demo.fresh_row]).
Proof. vm_compute. reflexivity. Qed.

Lemma allowlisted_record_kept_witness :
  In (first_column Demo.default_row) (dict_values BACKGROUND_MUSIC_URLS) /\
  exists w' del keep,
    for_fold ([] ++ Demo.default_row :: [Demo.jingle_row; Demo.fresh_row])
      process_one ([], []) Demo.world_empty = (w', inr (del, keep)) /\
    exists w1 d1 k1 d2 k2,
      for_fold [] process_one ([], []) Demo.world_empty = (w1, inr (d1, k1)) /\
      for_fold [Demo.jingle_row; Demo.fresh_row] process_one ([], [])
        (emit (SKIPPING (first_column Demo.default_row)) w1)
        = (w', inr (d2, k2)) /\
      del = d1 ++ d2 /\
      keep = k1 ++ Demo.default_row :: k2.
Proof.
  assert (Hin : In (first_column Demo.default_row)
                   (dict_values BACKGROUND_MUSIC_URLS))
    by (right; left; reflexivity).
  split; [exact Hin|].
  destruct (for_fold ([] ++ Demo.default_row :: [Demo.jingle_row; Demo.fresh_row])
              process_one ([], []) Demo.world_empty)
    as [w' [e|[del keep]]] eqn:E.
  - exfalso.
    discriminate (eq_trans (eq_sym (f_equal snd E)) scenario2_result).
  - exists w', del, keep. split; [reflexivity|].
    exact (allowlisted_record_kept [] _ _ [] _ _ _ _ _ Hin E).
Defined.

Lemma other_record_deleted_iff_older_than_30_days_witness :
  ~ In "jingle" (dict_values BACKGROUND_MUSIC_URLS) /\
  exists w' del keep,
    for_fold ([Demo.default_row] ++ Demo.jingle_row :: [Demo.fresh_row])
      process_one ([], []) Demo.world_empty = (w', inr (del, keep)) /\
    exists w1 d1 k1 w2 d2 k2 created_at,
      for_fold [Demo.default_row] process_one ([], []) Demo.world_empty
        = (w1, inr (d1, k1)) /\
      strptime "2024-10-26 12:00:00" = inr created_at /\
      for_fold [Demo.fresh_row] process_one ([], []) w2 = (w', inr (d2, k2)) /\
      if timedelta_days 30 <? clock (ticks w1) - created_at then
        del = d1 ++ "jingle" :: d2 /\ keep = k1 ++ k2
      else
        del = d1 ++ d2 /\ keep = k1 ++ Demo.jingle_row :: k2.
Proof.
  assert (Hout : ~ In "jingle" (dict_values BACKGROUND_MUSIC_URLS))
    by (apply not_str_in_In; reflexivity).
  split; [exact Hout|].
  destruct (for_fold ([Demo.default_row] ++ Demo.jingle_row :: [Demo.fresh_row])
              process_one ([], []) Demo.world_empty)
    as [w' [e|[del keep]]] eqn:E.
  - exfalso.
    discriminate (eq_trans (eq_sym (f_equal snd E)) scenario2_result).
  - exists w', del, keep. split; [reflexivity|].
    exact (other_record_deleted_iff_older_than_30_days
             [Demo.default_row] _ _ [] _ _ _ _ _ Hout E).
Defined.

Lemma empty_identifier_kept_witness :
  exists w' del keep,
    for_fold ([Demo.jingle_row] ++ Demo.nameless_row :: [Demo.fresh_row])
      process_one ([], []) Demo.world_empty = (w', inr (del, keep)) /\
    dict_get BACKGROUND_MUSIC_URLS "none" = Some "" /\
    In "" (dict_values BACKGROUND_MUSIC_URLS) /\
    exists w1 d1 k1 d2 k2,
      for_fold [Demo.jingle_row] process_one ([], []) Demo.world_empty
        = (w1, inr (d1, k1)) /\
      for_fold [Demo.fresh_row] process_one ([], []) (emit (SKIPPING "") w1)
        = (w', inr (d2, k2)) /\
      del = d1 ++ d2 /\
      keep = k1 ++ Demo.nameless_row :: k2.
Proof.
  destruct (for_fold ([Demo.jingle_row] ++ Demo.nameless_row :: [Demo.fresh_row])
              process_one ([], []) Demo.world_empty)
    as [w' [e|[del keep]]] eqn:E.
  - exfalso.
    assert (H : (for_fold ([Demo.jingle_row] ++ Demo.nameless_row :: [Demo.fresh_row])
                   process_one ([], []) Demo.world_empty).2
                = inr (["jingle"], [Demo.nameless_row; Demo.fresh_row]))
      by (vm_compute; reflexivity).
    rewrite E in H. discriminate H.
  - exists w', del, keep. split; [reflexivity|].
    exact (empty_identifier_kept [Demo.jingle_row] _ [] _ _ _ _ _ E).
Defined.

Lemma policyB_malformed_row_aborts_witness :
  files Demo.world_iso !! Demo.INPUT
    = Some (HEADER :: [Demo.jingle_row; ["tiktok_audio/x"; "2024-11-14T18:06:00Z"]]) /\
  Exists (fun r => malformed r = true)
    [Demo.jingle_row; ["tiktok_audio/x"; "2024-11-14T18:06:00Z"]] /\
  files (process_audio_files Demo.INPUT Demo.world_iso).1 = files Demo.world_iso /\
  exists evs e,
    journal (process_audio_files Demo.INPUT Demo.world_iso).1
      = journal Demo.world_iso ++ evs ++
        [EvLog ERROR ("Unexpected error while processing audio files: "
                      +:+ exn_str e)] /\
    forallb not_write evs = true.
Proof.
  assert (Hf : files Demo.world_iso !! Demo.INPUT
               = Some (HEADER :: [Demo.jingle_row;
                                  ["tiktok_audio/x"; "2024-11-14T18:06:00Z"]]))
    by (vm_compute; reflexivity).
  assert (Hm : Exists (fun r => malformed r = true)
                 [Demo.jingle_row; ["tiktok_audio/x"; "2024-11-14T18:06:00Z"]])
    by (apply Exists_cons_tl, Exists_cons_hd; vm_compute; reflexivity).
  split; [exact Hf|]. split; [exact Hm|].
  exact (policyB_malformed_row_aborts Demo.INPUT HEADER _ Demo.world_iso Hf Hm).
Defined.

Lemma output_reflects_selection_witness :
  files Demo.world_seven !! Demo.INPUT = Some (HEADER :: Demo.seven) /\
  Demo.seven <> [] /\
  Forall (fun r => length r = 2%nat) Demo.seven /\
  files (delete_audio_files Demo.INPUT Demo.world_seven).1 !! OUTPUT
    = Some (HEADER :: remaining_files_of Demo.seven) /\
  exists evs,
    journal (delete_audio_files Demo.INPUT Demo.world_seven).1
      = journal Demo.world_seven ++ evs /\
    filter (fun e => is_delete e = true) evs
      = map (fun r => EvDelete [first_column r] "video")
            (files_to_delete_of Demo.seven).
Proof.
  assert (Hf : files Demo.world_seven !! Demo.INPUT = Some (HEADER :: Demo.seven))
    by (vm_compute; reflexivity).
  assert (Hne : Demo.seven <> []) by discriminate.
  assert (H2 : Forall (fun r => length r = 2%nat) Demo.seven)
    by (repeat constructor).
  split; [exact Hf|]. split; [exact Hne|]. split; [exact H2|].
  exact (output_reflects_selection Demo.INPUT HEADER Demo.seven
           Demo.world_seven Hf Hne H2).
Defined.

Lemma small_record_twice_witness :
  files Demo.world_three !! Demo.INPUT = Some (HEADER :: Demo.three) /\
  (length Demo.three < 5)%nat /\
  Forall (fun r => length r = 2%nat) Demo.three /\
  (delete_audio_files Demo.INPUT Demo.world_three).2 = inr tt /\
  files (delete_audio_files Demo.INPUT Demo.world_three).1 !! OUTPUT
    = Some [HEADER] /\
  files (delete_audio_files OUTPUT
           (delete_audio_files Demo.INPUT Demo.world_three).1).1 !! OUTPUT
    = Some [HEADER].
Proof.
  assert (Hf : files Demo.world_three !! Demo.INPUT = Some (HEADER :: Demo.three))
    by (vm_compute; reflexivity).
  assert (Hlen : (length Demo.three < 5)%nat) by (simpl; lia).
  assert (H2 : Forall (fun r => length r = 2%nat) Demo.three)
    by (repeat constructor).
  split; [exact Hf|]. split; [exact Hlen|]. split; [exact H2|].
  destruct (small_record_twice Demo.INPUT HEADER Demo.three
              Demo.world_three Hf Hlen H2) as (Hret & Hout & _ & _ & _ & Hagain).
  split; [exact Hret|]. split; [exact Hout | exact Hagain].
Defined.

Lemma input_file_unchanged_witness :
  realpath Demo.INPUT <> realpath OUTPUT /\
  files (delete_audio_files Demo.INPUT Demo.world_seven).1 !! Demo.INPUT
    = files Demo.world_seven !! Demo.INPUT /\
  files (process_audio_files Demo.INPUT Demo.world_seven).1 !! Demo.INPUT
    = files Demo.world_seven !! Demo.INPUT.
Proof.
  assert (Hne : realpath Demo.INPUT <> realpath OUTPUT) by discriminate.
  split; [exact Hne|].
  destruct (input_file_unchanged Demo.INPUT Demo.world_seven Hne)
    as ((HA & _) & (HB & _)).
  split; [exact HA | exact HB].
Defined.

(** *** Where the claims fail as stated *)

(** C5 as stated fails on an empty record: the run returns before the
    rewrite, and the output file keeps the record of an earlier run
    instead of the (empty) list of the rows kept. *)
Lemma output_reflects_selection_counterexample :
  files Demo.world_stale !! Demo.INPUT = Some (HEADER :: []) /\
  files (delete_audio_files Demo.INPUT Demo.world_stale).1 !! OUTPUT
    = Some [HEADER; ["old"; "2023-12-31 00:00:00"]] /\
  files (delete_audio_files Demo.INPUT Demo.world_stale).1 !! OUTPUT
    <> Some (HEADER :: remaining_files_of []).
Proof.
  assert (H : files (delete_audio_files Demo.INPUT Demo.world_stale).1 !! OUTPUT
              = Some [HEADER; ["old"; "2023-12-31 00:00:00"]])
    by (vm_compute; reflexivity).
  split; [vm_compute; reflexivity|]. split; [exact H|].
  rewrite H. discriminate.
Qed.

(** C6 as stated fails for Policy A.  A lone data row with a single
    column does not abort the run: the run sends the delete request for
    it, logs no error, and writes the output file.  A row with a single
    column among the rows kept fails only in the rewrite, after the
    delete requests, when the output file has been truncated and
    written in part. *)
Lemma malformed_row_counterexample :
  (files Demo.world_solo !! Demo.INPUT = Some [HEADER; ["solo"]] /\
   files Demo.world_solo !! OUTPUT = None /\
   journal (delete_audio_files Demo.INPUT Demo.world_solo).1
     = [WARN_FEWER;
        EvDelete ["solo"] "video";
        EvLog WARNING "Failed to delete: solo";
        EvOpenW OUTPUT;
        EvWriteRow OUTPUT HEADER;
        EvLog INFO "Remaining audio file details saved to RemainingAudioFileDetails.csv"] /\
   files (delete_audio_files Demo.INPUT Demo.world_solo).1 !! OUTPUT
     = Some [HEADER]) /\
  (files Demo.world_solo_kept !! Demo.INPUT
     = Some (HEADER :: ["a"; "2024-01-01 00:00:00"] :: ["solo"] :: drop 2 Demo.seven) /\
   files Demo.world_solo_kept !! OUTPUT
     = Some [HEADER; ["old"; "2023-12-31 00:00:00"]] /\
   filter (fun e => is_delete e = true)
     (journal (delete_audio_files Demo.INPUT Demo.world_solo_kept).1)
     = [EvDelete ["c"] "video"; EvDelete ["d"] "video"; EvDelete ["e"] "video";
        EvDelete ["f"] "video"; EvDelete ["g"] "video"] /\
   last (journal (delete_audio_files Demo.INPUT Demo.world_solo_kept).1)
     = Some (EvLog ERROR
         "Error writing remaining audio file details to CSV: list index out of range") /\
   files (delete_audio_files Demo.INPUT Demo.world_solo_kept).1 !! OUTPUT
     = Some [HEADER; ["a"; "2024-01-01 00:00:00"]]).
Proof. repeat split; vm_compute; reflexivity. Qed.

(** C7 as stated fails on an empty record: the run logs an error, and
    leaves no output record, empty or not. *)
Lemma small_record_twice_counterexample :
  files Demo.world_empty !! Demo.INPUT = Some (HEADER :: []) /\
  journal (delete_audio_files Demo.INPUT Demo.world_empty).1
    = [EvLog ERROR "CSV file does not contain enough data to process."] /\
  files (delete_audio_files Demo.INPUT Demo.world_empty).1 !! OUTPUT = None /\
  files (delete_audio_files Demo.INPUT
           (delete_audio_files Demo.INPUT Demo.world_empty).1).1 !! OUTPUT = None.
Proof. repeat split; vm_compute; reflexivity. Qed.

(** C9 as stated fails when the input is the file of the fixed output
    name: the run of Policy A rewrites its own input. *)
Lemma input_file_unchanged_counterexample :
  files Demo.world_in_place !! OUTPUT = Some (HEADER :: Demo.seven) /\
  files (delete_audio_files OUTPUT Demo.world_in_place).1 !! OUTPUT
    = Some [HEADER; ["a"; "2024-01-01 00:00:00"]; ["b"; "2024-01-02 00:00:00"]] /\
  files (delete_audio_files OUTPUT Demo.world_in_place).1 !! OUTPUT
    <> files Demo.world_in_place !! OUTPUT.
Proof.
  assert (H0 : files Demo.world_in_place !! OUTPUT = Some (HEADER :: Demo.seven))
    by (vm_compute; reflexivity).
  assert (H1 : files (delete_audio_files OUTPUT Demo.world_in_place).1 !! OUTPUT
               = Some [HEADER; ["a"; "2024-01-01 00:00:00"];
                       ["b"; "2024-01-02 00:00:00"]])
    by (vm_compute; reflexivity).
  split; [exact H0|]. split; [exact H1|].
  rewrite H0, H1. discriminate.
Qed.
End Witnesses.

(** * Further properties of the scripts *)

Section PolicyAMore.
Context `{RT : Runtime}.
Import DeleteLastFiveAudioFiles.

Lemma delete_one_outcome filename rest w :
  delete_one (filename :: rest) w = (after_pass [filename :: rest] w, inr tt).
Proof.
  unfold delete_one. rewrite index_cons_0, run_ret_bind.
  unfold try_except. rewrite run_bind.
  unfold api_delete_resources, after_pass. cbv zeta.
  cbn [deletion_pass].
  change (first_column (filename :: rest)) with filename.
  change (remote (emit (EvDelete [filename] "video") w)) with (remote w).
  destruct (delete_resources [filename] "video" (remote w)) as [rm [body|msg]].
  - cbn [outcome_log fst snd].
    destruct (bool_decide _); unfold log, emit; cbn; by rewrite <- app_assoc.
  - cbn [is_cloudinary_error outcome_log fst snd exn_str].
    unfold log, emit; cbn. by rewrite <- app_assoc.
Qed.

Lemma after_pass_cons r rows w :
  after_pass (r :: rows) w = after_pass rows (after_pass [r] w).
Proof.
  unfold after_pass. cbn [deletion_pass remote journal files ticks].
  destruct (delete_resources [first_column r] "video" (remote w)) as [rm1 reply].
  cbn [fst snd].
  destruct (deletion_pass rows rm1) as [rm2 evs]. cbn [fst snd].
  by rewrite <- app_assoc.
Qed.

Lemma after_pass_nil w : after_pass [] w = w.
Proof. unfold after_pass. cbn. rewrite app_nil_r. by destruct w. Qed.

Lemma after_pass_app rows1 rows2 w :
  after_pass (rows1 ++ rows2) w = after_pass rows2 (after_pass rows1 w).
Proof.
  revert w. induction rows1 as [|r rows1 IH]; intros w.
  - by rewrite after_pass_nil.
  - cbn [app]. rewrite after_pass_cons, IH, <- after_pass_cons. reflexivity.
Qed.

(** The deletion pass over rows that all have a first column. *)
Lemma delete_loop_outcome (rows : list row) w :
  Forall (fun r => r <> []) rows ->
  for_each rows delete_one w = (after_pass rows w, inr tt).
Proof.
  intros H. revert w. induction H as [|r rows Hr _ IH]; intros w.
  - by rewrite after_pass_nil.
  - destruct r as [|filename rest]; [done|].
    rewrite for_each_cons, run_bind, delete_one_outcome, IH.
    by rewrite <- after_pass_cons.
Qed.

(** The deletion pass stops at the first row without a first column. *)
Lemma delete_loop_blank (good rest : list row) w :
  Forall (fun r => r <> []) good ->
  for_each (good ++ [] :: rest) delete_one w = (after_pass good w, inl IndexError).
Proof.
  intros H. rewrite for_each_app, run_bind, (delete_loop_outcome _ _ H).
  reflexivity.
Qed.

Lemma write_rows_stored f (rem : list row) w :
  Forall (fun r => (2 <= length r)%nat) rem ->
  for_each rem (fun detail =>
    d0 ← index detail 0; d1 ← index detail 1; writerow f [d0; d1]) w
  = (emit_all (map (EvWriteRow f) (map stored rem)) w, inr tt).
Proof.
  intros H. revert w. induction H as [|r rem Hr _ IH]; intros w.
  - reflexivity.
  - destruct r as [|a [|b r]]; try (simpl in Hr; lia).
    rewrite for_each_cons, run_bind, index_cons_0, run_ret_bind,
      index_cons_1, run_ret_bind.
    unfold writerow at 1. rewrite IH. reflexivity.
Qed.

Lemma write_rows_short f (good : list row) bad rest w :
  Forall (fun r => (2 <= length r)%nat) good ->
  (length bad < 2)%nat ->
  for_each (good ++ bad :: rest) (fun detail =>
    d0 ← index detail 0; d1 ← index detail 1; writerow f [d0; d1]) w
  = (emit_all (map (EvWriteRow f) (map stored good)) w, inl IndexError).
Proof.
  intros Hg Hb. rewrite for_each_app, run_bind, (write_rows_stored _ _ _ Hg).
  rewrite for_each_cons, run_bind.
  destruct bad as [|a [|b bad]]; [reflexivity | reflexivity | simpl in Hb; lia].
Qed.

Lemma save_stored rem w :
  Forall (fun r => (2 <= length r)%nat) rem ->
  save_remaining_details_to_csv rem w
  = (emit_all (save_events (map stored rem)) w, inr tt).
Proof.
  intros H. unfold save_remaining_details_to_csv, try_except.
  rewrite run_bind. unfold open_w at 1. rewrite run_bind.
  unfold writerow at 1. rewrite run_bind.
  rewrite (write_rows_stored _ _ _ H). unfold log.
  unfold save_events. f_equal.
  change (?a :: ?b :: ?l ++ [?c]) with ([a; b] ++ l ++ [c]).
  rewrite !emit_all_app. reflexivity.
Qed.

Lemma save_short good bad rest w :
  Forall (fun r => (2 <= length r)%nat) good ->
  (length bad < 2)%nat ->
  save_remaining_details_to_csv (good ++ bad :: rest) w
  = (emit_all (save_events_short good) w, inr tt).
Proof.
  intros Hg Hb. unfold save_remaining_details_to_csv, try_except.
  rewrite run_bind. unfold open_w at 1. rewrite run_bind.
  unfold writerow at 1. rewrite run_bind.
  rewrite (write_rows_short _ _ _ _ _ Hg Hb).
  cbn [is_Exception exn_str]. unfold log.
  unfold save_events_short. f_equal.
  change (?a :: ?b :: ?l ++ [?c]) with ([a; b] ++ l ++ [c]).
  rewrite !emit_all_app. reflexivity.
Qed.

Lemma save_events_short_files good fs :
  replay (save_events_short good) fs
  = <[realpath OUTPUT := HEADER :: map stored good]> fs.
Proof.
  unfold save_events_short.
  change (?a :: ?b :: ?l ++ [?c]) with ([a; b] ++ l ++ [c]).
  rewrite !replay_app, replay_write_rows. simpl.
  apply map_eq. intros k. rewrite lookup_alter.
  case_decide.
  - subst k. rewrite lookup_alter, decide_True by reflexivity.
    rewrite !lookup_insert_eq. reflexivity.
  - rewrite lookup_alter, decide_False by assumption.
    rewrite !lookup_insert_ne by assumption. reflexivity.
Qed.

Lemma emit_all_ticks evs w : ticks (emit_all evs w) = ticks w.
Proof.
  revert w. induction evs as [|e evs IH]; intros w; simpl; [reflexivity|].
  rewrite IH. reflexivity.
Qed.

(** The body of [delete_audio_files] up to its two loops: with a data
    row in the input, the run is the warning, the deletion pass over the
    last five rows, and the rewrite of the rows before them. *)
Lemma delete_audio_files_body csv header records w :
  files w !! realpath csv = Some (header :: records) ->
  records <> [] ->
  delete_audio_files csv w
  = try_except
      (for_each (files_to_delete_of records) delete_one;;
       save_remaining_details_to_csv (remaining_files_of records))
      is_Exception
      (fun e => log ERROR
         ("Unexpected error while deleting audio files: " +:+ exn_str e))
      (emit_all (warning_events records) w).
Proof.
  intros Hf Hne. unfold delete_audio_files, try_except.
  rewrite run_bind. unfold os_path_exists.
  rewrite Hf, bool_decide_eq_true_2 by eauto. cbn [negb].
  rewrite run_bind. unfold read_csv. rewrite Hf.
  replace (length (header :: records) <=? 1)%nat with false
    by (destruct records; [done | reflexivity]).
  rewrite slice_from_1. rewrite run_bind.
  unfold warning_events. destruct (length records <? 5)%nat; reflexivity.
Qed.

Lemma delete_audio_files_outcome csv header records w :
  files w !! realpath csv = Some (header :: records) ->
  records <> [] ->
  Forall (fun r => r <> []) (files_to_delete_of records) ->
  Forall (fun r => (2 <= length r)%nat) (remaining_files_of records) ->
  delete_audio_files csv w
  = (emit_all (save_events (map stored (remaining_files_of records)))
       (after_pass (files_to_delete_of records)
          (emit_all (warning_events records) w)), inr tt).
Proof.
  intros Hf Hne Hd Hk.
  rewrite (delete_audio_files_body _ _ _ _ Hf Hne). unfold try_except.
  rewrite run_bind, (delete_loop_outcome _ _ Hd), (save_stored _ _ Hk).
  reflexivity.
Qed.

Lemma after_pass_warning rows records w :
  remote (after_pass rows (emit_all (warning_events records) w))
    = (deletion_pass rows (remote w)).1 /\
  journal (after_pass rows (emit_all (warning_events records) w))
    = journal w ++ warning_events records ++ (deletion_pass rows (remote w)).2 /\
  files (after_pass rows (emit_all (warning_events records) w)) = files w /\
  ticks (after_pass rows (emit_all (warning_events records) w)) = ticks w.
Proof.
  unfold after_pass. cbn [remote journal files ticks].
  rewrite emit_all_remote, emit_all_journal, emit_all_files, emit_all_ticks.
  rewrite <- app_assoc. repeat split.
  unfold warning_events. destruct (_ <? _)%nat; reflexivity.
Qed.

(** X1.  A run of Policy A on a record with at least one row, whose rows
    to delete have a first column and whose rows kept have two columns,
    returns normally; its effects are the warning for a short record, then
    for each row to delete, in order, one request naming that identifier
    alone with resource type "video" followed by the one log line that
    classifies the reply, then the rewrite; the remote store is the one
    reached through these requests, and the clock is not read. *)
Theorem policyA_trace csv header records (w : World) :
  files w !! realpath csv = Some (header :: records) ->
  records <> [] ->
  Forall (fun r => r <> []) (files_to_delete_of records) ->
  Forall (fun r => (2 <= length r)%nat) (remaining_files_of records) ->
  (delete_audio_files csv w).2 = inr tt /\
  journal (delete_audio_files csv w).1
    = journal w ++ warning_events records ++
      (deletion_pass (files_to_delete_of records) (remote w)).2 ++
      save_events (map stored (remaining_files_of records)) /\
  remote (delete_audio_files csv w).1
    = (deletion_pass (files_to_delete_of records) (remote w)).1 /\
  ticks (delete_audio_files csv w).1 = ticks w.
Proof.
  intros Hf Hne Hd Hk.
  rewrite (delete_audio_files_outcome _ _ _ _ Hf Hne Hd Hk). cbn [fst snd].
  destruct (after_pass_warning (files_to_delete_of records) records w)
    as (Hr & Hj & _ & Ht).
  rewrite emit_all_journal, emit_all_remote, emit_all_ticks, Hr, Hj, Ht.
  by rewrite <- !app_assoc.
Qed.

Lemma delete_audio_files_files csv header records w :
  files w !! realpath csv = Some (header :: records) ->
  records <> [] ->
  Forall (fun r => r <> []) (files_to_delete_of records) ->
  Forall (fun r => (2 <= length r)%nat) (remaining_files_of records) ->
  files (delete_audio_files csv w).1
  = <[realpath OUTPUT := HEADER :: map stored (remaining_files_of records)]>
      (files w).
Proof.
  intros Hf Hne Hd Hk.
  rewrite (delete_audio_files_outcome _ _ _ _ Hf Hne Hd Hk). cbn [fst].
  destruct (after_pass_warning (files_to_delete_of records) records w)
    as (_ & _ & Hfs & _).
  by rewrite emit_all_files, Hfs, save_events_files.
Qed.

(** X2.  After such a run the output file holds the fixed header and the
    rows kept, each cut to its first two columns; the header row of the
    input and any further column are not carried over, and every other
    file is as before. *)
Theorem policyA_stores_two_columns csv header records (w : World) :
  files w !! realpath csv = Some (header :: records) ->
  records <> [] ->
  Forall (fun r => r <> []) (files_to_delete_of records) ->
  Forall (fun r => (2 <= length r)%nat) (remaining_files_of records) ->
  files (delete_audio_files csv w).1
  = <[realpath OUTPUT := HEADER :: map stored (remaining_files_of records)]>
      (files w).
Proof.
  intros Hf Hne Hd Hk.
  rewrite (delete_audio_files_outcome _ _ _ _ Hf Hne Hd Hk). cbn [fst].
  destruct (after_pass_warning (files_to_delete_of records) records w)
    as (_ & _ & Hfs & _).
  rewrite emit_all_files, Hfs. apply save_events_files.
Qed.

(** X3.  When one of the rows to delete is empty (a blank line of the
    file), the run sends the requests for the rows before it, then the
    handler of the script logs the [IndexError]; the later rows are not
    requested and no file is written, so the record is not rewritten
    although resources were deleted. *)
Theorem policyA_blank_row_stops_pass csv header records good rest (w : World) :
  files w !! realpath csv = Some (header :: records) ->
  files_to_delete_of records = good ++ [] :: rest ->
  Forall (fun r => r <> []) good ->
  (delete_audio_files csv w).2 = inr tt /\
  journal (delete_audio_files csv w).1
    = journal w ++ warning_events records ++
      (deletion_pass good (remote w)).2 ++
      [EvLog ERROR
         "Unexpected error while deleting audio files: list index out of range"] /\
  remote (delete_audio_files csv w).1 = (deletion_pass good (remote w)).1 /\
  files (delete_audio_files csv w).1 = files w.
Proof.
  intros Hf Hsplit Hg.
  assert (Hne : records <> []).
  { intros ->. by destruct good. }
  rewrite (delete_audio_files_body _ _ _ _ Hf Hne). unfold try_except.
  rewrite run_bind, Hsplit, (delete_loop_blank _ _ _ Hg).
  cbn [is_Exception exn_str]. unfold log. cbn [fst snd].
  destruct (after_pass_warning good records w) as (Hr & Hj & Hfs & _).
  unfold emit. cbn [journal remote files apply_event].
  rewrite Hr, Hj, Hfs. by rewrite <- !app_assoc.
Qed.

(** X4.  When one of the rows kept has fewer than two columns, the whole
    deletion pass has run before the rewrite fails at that row: the output
    file has been truncated and holds the header and the rows kept before
    it, the error is logged by the handler of the rewrite, and the run
    returns normally. *)
Theorem policyA_short_row_partial_rewrite
    csv header records good bad rest (w : World) :
  files w !! realpath csv = Some (header :: records) ->
  remaining_files_of records = good ++ bad :: rest ->
  Forall (fun r => (2 <= length r)%nat) good ->
  (length bad < 2)%nat ->
  Forall (fun r => r <> []) (files_to_delete_of records) ->
  (delete_audio_files csv w).2 = inr tt /\
  journal (delete_audio_files csv w).1
    = journal w ++ warning_events records ++
      (deletion_pass (files_to_delete_of records) (remote w)).2 ++
      save_events_short good /\
  files (delete_audio_files csv w).1
    = <[realpath OUTPUT := HEADER :: map stored good]> (files w).
Proof.
  intros Hf Hsplit Hg Hb Hd.
  assert (Hne : records <> []).
  { intros ->. by destruct good. }
  rewrite (delete_audio_files_body _ _ _ _ Hf Hne). unfold try_except.
  rewrite run_bind, (delete_loop_outcome _ _ Hd), Hsplit,
    (save_short _ _ _ _ Hg Hb).
  cbn [fst snd].
  destruct (after_pass_warning (files_to_delete_of records) records w)
    as (_ & Hj & Hfs & _).
  rewrite emit_all_journal, emit_all_files, Hj, Hfs, save_events_short_files.
  by rewrite <- !app_assoc.
Qed.
End PolicyAMore.

(** ** Early exits and repeated runs *)

Section EarlyExits.
Context `{RT : Runtime}.

(** X5.  Given a path that names no file, either script logs that the file
    does not exist, under the path as it was typed, and does nothing else:
    no request, no clock read, no file written. *)
Theorem missing_input_file csv (w : World) :
  files w !! realpath csv = None ->
  DeleteLastFiveAudioFiles.delete_audio_files csv w
    = (emit (EvLog ERROR ("CSV file '" +:+ csv +:+ "' does not exist.")) w, inr tt) /\
  ProcessAudioFiles.process_audio_files csv w
    = (emit (EvLog ERROR ("CSV file '" +:+ csv +:+ "' does not exist.")) w, inr tt).
Proof.
  intros Hf.
  assert (Hex : bool_decide (is_Some (files w !! realpath csv)) = false).
  { apply bool_decide_eq_false_2. rewrite Hf. by intros [? ?]. }
  split.
  - unfold DeleteLastFiveAudioFiles.delete_audio_files, try_except.
    rewrite run_bind. unfold os_path_exists. rewrite Hex. reflexivity.
  - unfold ProcessAudioFiles.process_audio_files, try_except.
    rewrite run_bind. unfold os_path_exists. rewrite Hex. reflexivity.
Qed.

(** X6.  Given a file with no row or with one row only (its header),
    Policy B logs that the file holds too little data and does nothing
    else: the clock is not read and the output file is not written, so an
    output file left by an earlier run stays as it is. *)
Theorem policyB_header_only csv rows (w : World) :
  files w !! realpath csv = Some rows ->
  (length rows <= 1)%nat ->
  ProcessAudioFiles.process_audio_files csv w
    = (emit (EvLog ERROR "CSV file does not contain enough data to process.") w,
       inr tt).
Proof.
  intros Hf Hlen.
  unfold ProcessAudioFiles.process_audio_files. apply try_except_inr.
  rewrite run_bind. unfold os_path_exists.
  rewrite Hf, bool_decide_eq_true_2 by eauto. cbn [negb].
  rewrite run_bind. unfold read_csv. rewrite Hf.
  replace (length rows <=? 1)%nat with true
    by (symmetry; apply Nat.leb_le; exact Hlen).
  reflexivity.
Qed.
End EarlyExits.

Section PolicyARepeated.
Context `{RT : Runtime}.
Import DeleteLastFiveAudioFiles.

Lemma stored_length r : (2 <= length r)%nat -> length (stored r) = 2%nat.
Proof. intros H. unfold stored. rewrite length_take. lia. Qed.

Lemma stored_stored r : stored (stored r) = stored r.
Proof. unfold stored. rewrite take_take. reflexivity. Qed.

Lemma map_stored_wide (l : list row) :
  Forall (fun r => (2 <= length r)%nat) l ->
  Forall (fun r => (2 <= length r)%nat) (map stored l).
Proof.
  intros H. apply Forall_map. eapply Forall_impl; [exact H|].
  intros r Hr. simpl. rewrite stored_length; [lia | exact Hr].
Qed.

(** One run in place, on a record held under any header. *)
Lemma policyA_in_place_step csv header (recs : list row) w :
  realpath csv = realpath OUTPUT ->
  files w !! realpath OUTPUT = Some (header :: recs) ->
  Forall (fun r => (2 <= length r)%nat) recs ->
  files (delete_audio_files csv w).1 !! realpath OUTPUT
    = Some (if decide (recs = []) then header :: recs
            else HEADER :: map stored (take (length recs - 5) recs)).
Proof.
  intros Hpath Hf Hw. rewrite <- Hpath in Hf.
  destruct (decide (recs = [])) as [->|Hne].
  - rewrite (delete_audio_files_short csv [header] w Hf) by (simpl; lia).
    cbn [fst]. unfold emit. cbn [files apply_event]. by rewrite <- Hpath.
  - rewrite (delete_audio_files_files csv header recs w Hf Hne).
    + rewrite lookup_insert_eq, remaining_files_of_take. reflexivity.
    + rewrite files_to_delete_of_drop. apply Forall_drop.
      eapply Forall_impl; [exact Hw|]. intros r Hr ->. simpl in Hr. lia.
    + rewrite remaining_files_of_take. by apply Forall_take.
Qed.

(** X7.  Policy A run again and again on its own output file (the input
    path names [RemainingAudioFileDetails.csv]) drops five more rows each
    time, from the end: after [k] runs, [k >= 1], the file holds the fixed
    header and the first [n - 5k] of the [n] rows it began with, cut to
    two columns, and once no row is left further runs leave the header
    alone in it. *)
Theorem policyA_repeated_in_place csv header records k (w : World) :
  realpath csv = realpath OUTPUT ->
  files w !! realpath OUTPUT = Some (header :: records) ->
  records <> [] ->
  Forall (fun r => (2 <= length r)%nat) records ->
  files (repeat_policyA (S k) csv w) !! realpath OUTPUT
    = Some (HEADER :: map stored (take (length records - 5 * S k) records)).
Proof.
  intros Hpath Hf Hne Hw. induction k as [|k IH].
  - cbn [repeat_policyA].
    rewrite (policyA_in_place_step csv header records w Hpath Hf Hw).
    rewrite decide_False by exact Hne. reflexivity.
  - cbn [repeat_policyA] in *.
    set (m := (length records - 5 * S k)%nat) in *.
    assert (Hwide : Forall (fun r => (2 <= length r)%nat)
                      (map stored (take m records)))
      by (apply map_stored_wide; by apply Forall_take).
    rewrite (policyA_in_place_step csv HEADER _ _ Hpath IH Hwide).
    destruct (decide (map stored (take m records) = [])) as [Hnil|Hsome].
    + apply map_eq_nil in Hnil.
      destruct (take_nil_inv _ _ Hnil) as [Hm|Hr]; [|done].
      replace (length records - 5 * S (S k))%nat with 0%nat by lia.
      by rewrite Hm.
    + rewrite length_map, length_take, firstn_map, take_take, map_map.
      replace ((m `min` length records - 5) `min` m)%nat
        with (length records - 5 * S (S k))%nat by lia.
      f_equal. f_equal. apply map_ext. intros r. apply stored_stored.
Qed.
End PolicyARepeated.

(** ** Policy B on a well-formed input *)

Section PolicyBMore.
Context `{RT : Runtime}.
Import ProcessAudioFiles.

Lemma well_formed_row r :
  malformed r = false ->
  exists filename created_str extra t,
    r = filename :: created_str :: extra /\ strptime created_str = inr t.
Proof.
  intros Hm. destruct r as [|filename [|created_str extra]]; try discriminate Hm.
  simpl in Hm. destruct (strptime created_str) as [msg|t] eqn:Ht; [discriminate|].
  eauto 6.
Qed.

(** The loop of Policy B, on rows that are all well-formed and with a
    clock that never reads within 30 days of [datetime.min], is the
    selection. *)
Lemma process_rows_selection rows acc w :
  Forall (fun r => malformed r = false) rows ->
  (forall k, timedelta_days 30 <= clock k) ->
  for_fold rows process_one acc w
  = let '(del, keep, evs, t') := selection rows (ticks w) in
    (mkWorld (files w) (remote w) t' (journal w ++ evs),
     inr (acc.1 ++ del, acc.2 ++ keep)).
Proof.
  intros H Hclock. revert acc w.
  induction H as [|r rows Hr _ IH]; intros acc w.
  - cbn. rewrite !app_nil_r. by destruct w, acc.
  - destruct (well_formed_row r Hr) as (f & ts & extra & t & -> & Ht).
    rewrite for_fold_cons, run_bind. cbn [selection].
    change (first_column (f :: ts :: extra)) with f.
    change (default "" ((f :: ts :: extra) !! 1%nat)) with ts.
    rewrite Ht.
    destruct (allowlisted f) eqn:Ha.
    + rewrite (process_one_allowlisted _ _ _ _ _ _ Ht Ha), IH.
      change (ticks (emit (SKIPPING f) w)) with (ticks w).
      destruct (selection rows (ticks w)) as [[[del keep] evs] t'].
      unfold emit. cbn [files remote journal apply_event SKIPPING fst snd].
      by rewrite <- !app_assoc.
    + rewrite (process_one_other _ _ _ _ _ _ Ht Ha).
      replace (clock (ticks w) - timedelta_days 30 <? 0) with false
        by (symmetry; apply Z.ltb_ge; specialize (Hclock (ticks w)); lia).
      destruct (t <? clock (ticks w) - timedelta_days 30).
      * rewrite IH.
        change (ticks (emit (WOULD_DELETE f) (tick w))) with (S (ticks w)).
        destruct (selection rows (S (ticks w))) as [[[del keep] evs] t'].
        unfold emit, tick.
        cbn [files remote journal apply_event WOULD_DELETE fst snd].
        by rewrite <- !app_assoc.
      * rewrite IH. change (ticks (tick w)) with (S (ticks w)).
        destruct (selection rows (S (ticks w))) as [[[del keep] evs] t'].
        unfold tick. cbn [files remote journal fst snd].
        by rewrite <- !app_assoc.
Qed.

(** The rows that the selection keeps have two columns. *)
Lemma selection_keeps_pairs rows t :
  Forall (fun r => length r = 2%nat) (selection rows t).1.1.2.
Proof.
  revert t. induction rows as [|r rows IH]; intros t; cbn [selection].
  - constructor.
  - destruct (allowlisted (first_column r)).
    + specialize (IH t). destruct (selection rows t) as [[[del keep] evs] t'].
      cbn in *. by constructor.
    + specialize (IH (S t)).
      destruct (selection rows (S t)) as [[[del keep] evs] t'].
      destruct (_ <? _); cbn in *; [assumption | by constructor].
Qed.

Lemma report_run (files_to_delete : list string) w :
  (if bool_decide (files_to_delete <> []) then
     log INFO "The following files would be deleted: ";;
     for_each files_to_delete (fun file => log INFO (" - " +:+ file))
   else
     log INFO "No files are older than 30 days and eligible for deletion.") w
  = (emit_all (report_events files_to_delete) w, inr tt).
Proof.
  destruct files_to_delete as [|f l].
  - reflexivity.
  - rewrite bool_decide_eq_true_2 by discriminate.
    rewrite run_bind. unfold log at 1. cbn [report_events emit_all fold_left].
    fold (emit_all (map (fun file => EvLog INFO (" - " +:+ file)) (f :: l))
            (emit (EvLog INFO "The following files would be deleted: ") w)).
    generalize (emit (EvLog INFO "The following files would be deleted: ") w).
    generalize (f :: l). clear. intros l.
    induction l as [|x l IH]; intros w; [reflexivity|].
    rewrite for_each_cons, run_bind. unfold log at 1. rewrite IH. reflexivity.
Qed.

Lemma process_audio_files_outcome csv header records w :
  files w !! realpath csv = Some (header :: records) ->
  records <> [] ->
  Forall (fun r => malformed r = false) records ->
  (forall k, timedelta_days 30 <= clock k) ->
  process_audio_files csv w
  = let '(del, keep, evs, t') := selection records (ticks w) in
    (emit_all (save_events keep)
       (emit_all (report_events del)
          (mkWorld (files w) (remote w) t' (journal w ++ evs))), inr tt).
Proof.
  intros Hf Hne Hwf Hclock.
  unfold process_audio_files. 
  pose proof (selection_keeps_pairs records (ticks w)) as Hpairs.
  pose proof (process_rows_selection records ([], []) w Hwf Hclock) as Hloop.
  destruct (selection records (ticks w)) as [[[del keep] evs] t'].
  cbn [fst snd app] in *.
  apply try_except_inr.
  rewrite run_bind. unfold os_path_exists.
  rewrite Hf, bool_decide_eq_true_2 by eauto. cbn [negb].
  rewrite run_bind. unfold read_csv. rewrite Hf.
  replace (length (header :: records) <=? 1)%nat with false
    by (destruct records; [done | reflexivity]).
  rewrite slice_from_1, run_bind, Hloop, run_bind, report_run.
  exact (save_run keep _ Hpairs).
Qed.
(** X8.  On an input file with at least one data row, all rows with two
    columns and a timestamp that parses, and with a clock that never reads
    within 30 days of [datetime.min], a run of Policy B returns normally
    and is the [selection] of its rows: it logs the lines of the loop,
    then the report of the identifiers marked, then rewrites the output
    file with the header and the rows kept as identifier and timestamp;
    the remote store is untouched. *)
Theorem policyB_run csv header records (w : World) :
  files w !! realpath csv = Some (header :: records) ->
  records <> [] ->
  Forall (fun r => malformed r = false) records ->
  (forall k, timedelta_days 30 <= clock k) ->
  let '(del, keep, evs, t') := selection records (ticks w) in
  (process_audio_files csv w).2 = inr tt /\
  journal (process_audio_files csv w).1
    = journal w ++ evs ++ report_events del ++ save_events keep /\
  files (process_audio_files csv w).1
    = <[realpath OUTPUT := HEADER :: keep]> (files w) /\
  remote (process_audio_files csv w).1 = remote w /\
  ticks (process_audio_files csv w).1 = t'.
Proof.
  intros Hf Hne Hwf Hclock.
  rewrite (process_audio_files_outcome _ _ _ _ Hf Hne Hwf Hclock).
  destruct (selection records (ticks w)) as [[[del keep] evs] t'].
  cbn [fst snd].
  rewrite !emit_all_journal, !emit_all_files, !emit_all_remote, !emit_all_ticks.
  cbn [journal files remote ticks].
  rewrite save_events_files, <- !app_assoc. repeat split.
  f_equal. apply replay_no_write.
  destruct del; cbn; [reflexivity|].
  clear. induction del as [|x l IH]; [reflexivity | exact IH].
Qed.

(** X9.  Whenever the loop of Policy B completes, it has put every row in
    exactly one of its two lists and kept the order of the file: the
    identifiers marked and the rows kept are sub-sequences of the
    identifiers and of the rows (cut to two columns) of the input, together
    they are all of them, and the clock was read once for each row that is
    not allow-listed. *)
Theorem policyB_partition rows (w w' : World) del keep :
  for_fold rows process_one ([], []) w = (w', inr (del, keep)) ->
  (length del + length keep = length rows)%nat /\
  del `sublist_of` map first_column rows /\
  keep `sublist_of` map stored rows /\
  del ++ map first_column keep ≡ₚ map first_column rows /\
  ticks w' = (ticks w +
              length (filter (fun r => allowlisted (first_column r) = false) rows))%nat.
Proof.
  revert w w' del keep. induction rows as [|r rows IH]; intros w w' del keep H.
  - injection H as <- <- <-. cbn. repeat split; try constructor. lia.
  - rewrite for_fold_cons, run_bind in H.
    destruct (process_one ([], []) r w) as [w1 [e|acc1]] eqn:Er; [discriminate|].
    destruct (process_one_inr _ _ _ _ _ Er) as (f & ts & extra & t & -> & Ht).
    rewrite process_rows_prepend in H.
    destruct (for_fold rows process_one ([], []) w1) as [w2 [e|[d2 k2]]] eqn:Erest;
      [discriminate|].
    destruct (IH _ _ _ _ Erest) as (Hlen & Hd & Hk & Hp & Hticks).
    cbn [prepend] in H. injection H as <- <- <-.
    change (map first_column ((f :: ts :: extra) :: rows))
      with (f :: map first_column rows).
    change (map stored ((f :: ts :: extra) :: rows))
      with ([f; ts] :: map stored rows).
    change (first_column (f :: ts :: extra)) with f in *.
    destruct (allowlisted f) eqn:Ha.
    + rewrite (process_one_allowlisted _ _ _ _ _ _ Ht Ha) in Er.
      injection Er as <- <-. cbn [fst snd app length map].
      rewrite filter_cons_False by (cbn; congruence).
      change (first_column [f; ts]) with f.
      repeat split.
      * lia.
      * by apply sublist_cons.
      * by apply sublist_skip.
      * rewrite <- Permutation_middle. by constructor.
      * exact Hticks.
    + rewrite (process_one_other _ _ _ _ _ _ Ht Ha) in Er.
      rewrite filter_cons_True by (cbn; congruence).
      destruct (_ <? 0); [discriminate|].
      destruct (t <? _); injection Er as <- <-; cbn [fst snd app length map].
      * repeat split.
        -- lia.
        -- by apply sublist_skip.
        -- by apply sublist_cons.
        -- by constructor.
        -- rewrite Hticks. cbn. lia.
      * change (first_column [f; ts]) with f.
        repeat split.
        -- lia.
        -- by apply sublist_cons.
        -- by apply sublist_skip.
        -- rewrite <- Permutation_middle. by constructor.
        -- rewrite Hticks. cbn. lia.
Qed.

Lemma saveB_is_saveA rem :
  save_remaining_details_to_csv rem
  = DeleteLastFiveAudioFiles.save_remaining_details_to_csv rem.
Proof. reflexivity. Qed.
End PolicyBMore.

(** ** The listing script *)

Section ListingFacts.
Context `{LS : Listing}.
Import CloudinaryFileCounts.

Lemma details_of_cons resources pages :
  details_of (resources :: pages) = map detail_of resources ++ details_of pages.
Proof. reflexivity. Qed.

(** The loop against a store that serves [pages] and stops by [s]. *)
Lemma fetch_loop_serves rm cursor pages s rm' :
  serves rm cursor pages s rm' ->
  forall fuel acc (w : World),
    remote w = rm ->
    (length pages < fuel)%nat ->
    fetch_loop fuel cursor acc w
    = (mkWorld (files w) rm' (ticks w) (journal w ++ stop_warning s),
       inr (acc ++ details_of pages, loop_end_of s)).
Proof.
  induction 1 as [rm cursor rm' f Hcall
                 |rm cursor rm' response Hcall Hres
                 |rm cursor rm' response resources Hcall Hres Hcur
                 |rm cursor rm1 response resources pages s rm' Hcall Hres Hcur _ IH];
    intros fuel acc w Hrm Hfuel;
    (destruct fuel as [|fuel]; [simpl in Hfuel; lia|]);
    cbn [fetch_loop]; rewrite run_bind; unfold api_resources;
    rewrite Hrm, Hcall; cbn iota beta.
  - cbn. by rewrite !app_nil_r.
  - rewrite Hres. rewrite run_bind. unfold log, emit. cbn.
    by rewrite !app_nil_r.
  - rewrite Hres, Hcur. cbn. by rewrite !app_nil_r.
  - rewrite Hres, Hcur.
    rewrite IH by (cbn in *; first [reflexivity | lia]).
    cbn [files ticks journal]. rewrite details_of_cons, app_assoc. reflexivity.
Qed.
Lemma get_audio_files_details_serves pages s rm' fuel (w : World) :
  serves (remote w) None pages s rm' ->
  (length pages < fuel)%nat ->
  get_audio_files_details fuel w
  = (emit_all (stop_events s (length (details_of pages)))
       (mkWorld (files w) rm' (ticks w) (journal w ++ [FETCHING])),
     inr (Some (details_of pages))).
Proof.
  intros Hs Hfuel. unfold get_audio_files_details.
  rewrite run_bind. unfold log at 1. rewrite run_bind.
  pose proof (fetch_loop_serves _ _ _ _ _ Hs fuel [] (emit FETCHING w)
                eq_refl Hfuel) as E.
  unfold FETCHING in E. rewrite E. clear E.
  cbn [app]. unfold emit. cbn [files remote ticks journal apply_event].
  destruct s as [|response|[msg|msg| |msg]];
    cbn [loop_end_of stop_warning stop_events]; rewrite ?app_nil_r;
    try rewrite run_bind; unfold log, emit; cbn; reflexivity.
Qed.

Lemma replay_written f header (rows : list row) lvl msg fs :
  replay (EvOpenW f :: EvWriteRow f header ::
          map (EvWriteRow f) rows ++ [EvLog lvl msg]) fs
  = <[f := header :: rows]> fs.
Proof.
  change (?a :: ?b :: ?l ++ [?c]) with ([a; b] ++ l ++ [c]).
  rewrite !replay_app, replay_write_rows. simpl.
  apply map_eq. intros k. rewrite lookup_alter.
  case_decide.
  - subst k. rewrite lookup_alter, decide_True by reflexivity.
    rewrite !lookup_insert_eq. reflexivity.
  - rewrite lookup_alter, decide_False by assumption.
    rewrite !lookup_insert_ne by assumption. reflexivity.
Qed.

Lemma write_details_run f (details : list (string * string)) (w : World) :
  for_each details (fun detail => writerow f [detail.1; detail.2]) w
  = (emit_all (map (EvWriteRow f) (map detail_row details)) w, inr tt).
Proof.
  revert w. induction details as [|d details IH]; intros w; [reflexivity|].
  rewrite for_each_cons, run_bind. unfold writerow at 1. rewrite IH. reflexivity.
Qed.

Lemma save_details_run details (w : World) :
  save_details_to_csv AUDIO_DETAILS_FILENAME details w
  = (emit_all (listing_events details) w, inr tt).
Proof.
  unfold save_details_to_csv, try_except.
  rewrite run_bind. unfold open_w at 1. rewrite run_bind.
  unfold writerow at 1. rewrite run_bind, write_details_run. unfold log.
  unfold listing_events. f_equal.
  change (?a :: ?b :: ?l ++ [?c]) with ([a; b] ++ l ++ [c]).
  rewrite !emit_all_app. reflexivity.
Qed.

Lemma stop_events_no_write s n : forallb not_write (stop_events s n) = true.
Proof. by destruct s as [|response|[msg|msg| |msg]]. Qed.

(** X10.  Against a store that serves some pages of resources and then
    stops (by a page without a next cursor, by a response without
    ['resources'], or by raising), and within the bound on requests, the
    listing returns the entries of all the pages served, in order, with
    ['Unknown'] for a missing key: pages fetched before a failure or an
    interrupt are not lost.  It logs the line of the way it stopped, with
    the count of entries when the loop was left by a [break], and writes
    no file. *)
Theorem listing_returns_pages_served pages s rm' fuel (w : World) :
  serves (remote w) None pages s rm' ->
  (length pages < fuel)%nat ->
  (get_audio_files_details fuel w).2 = inr (Some (details_of pages)) /\
  journal (get_audio_files_details fuel w).1
    = journal w ++ FETCHING :: stop_events s (length (details_of pages)) /\
  remote (get_audio_files_details fuel w).1 = rm' /\
  files (get_audio_files_details fuel w).1 = files w.
Proof.
  intros Hs Hfuel. rewrite (get_audio_files_details_serves _ _ _ _ _ Hs Hfuel).
  cbn [fst snd].
  rewrite emit_all_journal, emit_all_remote, emit_all_files.
  cbn [journal remote files]. rewrite <- app_assoc.
  repeat split. apply replay_no_write, stop_events_no_write.
Qed.

(** X11.  In the same setting the script then rewrites
    [AudioFileDetails.csv] beside the script with the header and one row of
    two columns for each entry returned, whatever the way the listing
    stopped: after a failure or an interrupt the entries fetched so far
    are saved, and with no entry at all the file holds the header alone. *)
Theorem listing_saves_what_was_fetched pages s rm' fuel (w : World) :
  serves (remote w) None pages s rm' ->
  (length pages < fuel)%nat ->
  (process_audio_details fuel w).2 = inr (Some tt) /\
  files (process_audio_details fuel w).1
    = <[realpath LISTING := HEADER :: map detail_row (details_of pages)]> (files w) /\
  journal (process_audio_details fuel w).1
    = journal w ++ FETCHING :: stop_events s (length (details_of pages)) ++
      listing_events (details_of pages).
Proof.
  intros Hs Hfuel. unfold process_audio_details.
  rewrite run_bind, (get_audio_files_details_serves _ _ _ _ _ Hs Hfuel).
  rewrite run_bind, save_details_run. cbn [fst snd mret M_ret].
  rewrite !emit_all_journal, !emit_all_files. cbn [journal files].
  split; [reflexivity|]. split.
  - rewrite (replay_no_write (stop_events _ _)) by apply stop_events_no_write.
    apply replay_written.
  - by rewrite <- !app_assoc.
Qed.

(** X12.  The loop has no bound of its own: against a store that hands
    out a next cursor with every page, the listing has not finished after
    any number of requests. *)
Theorem listing_unbounded fuel (w : World) :
  (forall cursor rm, exists rm' response resources,
     list_resources "video" "upload" 50 cursor 60 rm = (rm', Page response) /\
     page_resources response = Some resources /\
     no_cursor (page_next_cursor response) = false) ->
  (get_audio_files_details fuel w).2 = inr None /\
  (process_audio_details fuel w).2 = inr None /\
  files (process_audio_details fuel w).1 = files w.
Proof.
  intros Hgo.
  assert (Hloop : forall fuel cursor acc (w0 : World),
            exists w1 acc1, fetch_loop fuel cursor acc w0 = (w1, inr (acc1, LoopRunning))
                            /\ files w1 = files w0 /\ journal w1 = journal w0).
  { clear fuel w. induction fuel as [|fuel IH]; intros cursor acc w0.
    - exists w0, acc. auto.
    - destruct (Hgo cursor (remote w0)) as (rm' & response & resources & Hc & Hr & Hn).
      cbn [fetch_loop]. rewrite run_bind. unfold api_resources. rewrite Hc.
      cbn iota beta. rewrite Hr, Hn.
      destruct (IH (page_next_cursor response) (acc ++ map detail_of resources)
                  (mkWorld (files w0) rm' (ticks w0) (journal w0)))
        as (w1 & acc1 & -> & Hf & Hj). eauto. }
  assert (Hget : exists w1, get_audio_files_details fuel w = (w1, inr None)
                            /\ files w1 = files w).
  { unfold get_audio_files_details. rewrite run_bind. unfold log at 1.
    rewrite run_bind.
    destruct (Hloop fuel None [] (emit FETCHING w)) as (w1 & acc1 & E & Hf & _).
    unfold FETCHING in E. rewrite E. exists w1. split; [reflexivity|].
    rewrite Hf. reflexivity. }
  destruct Hget as (w1 & Hget & Hf).
  unfold process_audio_details. rewrite run_bind, Hget. cbn. auto.
Qed.
End ListingFacts.

(** ** The scripts one after the other *)

Section Pipelines.
Context `{LS : Listing}.
Import CloudinaryFileCounts.

Lemma detail_rows_pairs (details : list (string * string)) :
  Forall (fun r : row => (2 <= length r)%nat) (map detail_row details).
Proof. apply Forall_map, Forall_forall. intros d _. simpl. lia. Qed.

Lemma stored_detail_rows (details : list (string * string)) :
  map stored (map detail_row details) = map detail_row details.
Proof. rewrite map_map. apply map_ext. by intros [a b]. Qed.

Lemma listing_file pages s rm' fuel (w : World) :
  serves (remote w) None pages s rm' ->
  (length pages < fuel)%nat ->
  files (process_audio_details fuel w).1 !! realpath LISTING
    = Some (HEADER :: map detail_row (details_of pages)) /\
  remote (process_audio_details fuel w).1 = rm'.
Proof.
  intros Hs Hfuel. unfold process_audio_details.
  rewrite run_bind, (get_audio_files_details_serves _ _ _ _ _ Hs Hfuel).
  rewrite run_bind, save_details_run. cbn [fst snd mret M_ret].
  rewrite !emit_all_files, !emit_all_remote. cbn [files remote].
  split; [|reflexivity].
  rewrite (replay_no_write (stop_events _ _)) by apply stop_events_no_write.
  unfold listing_events. rewrite replay_written. apply lookup_insert_eq.
Qed.

(** X13.  Policy A accepts every file the listing script writes with at
    least one entry: run on that file it returns normally, asks the store
    to delete the last five entries listed (all of them when there are
    fewer), in the order of the listing, and leaves the entries before
    them, in that order, in the output file. *)
Theorem listing_then_policyA pages s rm' fuel csv (w : World) :
  serves (remote w) None pages s rm' ->
  (length pages < fuel)%nat ->
  details_of pages <> [] ->
  realpath csv = realpath LISTING ->
  let w1 := (process_audio_details fuel w).1 in
  let n := length (details_of pages) in
  (DeleteLastFiveAudioFiles.delete_audio_files csv w1).2 = inr tt /\
  files (DeleteLastFiveAudioFiles.delete_audio_files csv w1).1 !! realpath OUTPUT
    = Some (HEADER :: map detail_row (take (n - 5) (details_of pages))) /\
  remote (DeleteLastFiveAudioFiles.delete_audio_files csv w1).1
    = (deletion_pass (map detail_row (drop (n - 5) (details_of pages))) rm').1.
Proof.
  intros Hs Hfuel Hne Hpath w1 n.
  destruct (listing_file _ _ _ _ _ Hs Hfuel) as [Hfile Hrm].
  fold w1 in Hfile, Hrm. rewrite <- Hpath in Hfile.
  set (rows := map detail_row (details_of pages)) in *.
  assert (Hrows : rows <> []).
  { unfold rows. intros E. apply map_eq_nil in E. done. }
  assert (Hlen : length rows = n) by (unfold rows; apply length_map).
  assert (Hdel : files_to_delete_of rows
                 = map detail_row (drop (n - 5) (details_of pages))).
  { rewrite files_to_delete_of_drop, Hlen. unfold rows.
    apply skipn_map. }
  assert (Hkeep : remaining_files_of rows
                  = map detail_row (take (n - 5) (details_of pages))).
  { rewrite remaining_files_of_take, Hlen. unfold rows. apply firstn_map. }
  assert (Hd : Forall (fun r : row => r <> []) (files_to_delete_of rows)).
  { rewrite Hdel. apply Forall_map, Forall_forall. by intros d _. }
  assert (Hk : Forall (fun r : row => (2 <= length r)%nat) (remaining_files_of rows)).
  { rewrite Hkeep. apply detail_rows_pairs. }
  rewrite (delete_audio_files_outcome csv HEADER rows w1 Hfile Hrows Hd Hk).
  cbn [fst snd].
  destruct (after_pass_warning (files_to_delete_of rows) rows w1)
    as (Hr & _ & Hfs & _).
  rewrite emit_all_files, emit_all_remote, Hfs, Hr, save_events_files.
  rewrite lookup_insert_eq, Hkeep, Hdel, Hrm, stored_detail_rows.
  auto.
Qed.

(** X14.  The listing script writes ['Unknown'] for a resource that has
    no creation time, and Policy B parses every timestamp before anything
    else: when [strptime] rejects ['Unknown'], one such resource in the
    listing makes Policy B, run on the listing file, end in its handler
    without writing any file. *)
Theorem listing_unknown_stops_policyB pages s rm' fuel csv resource msg (w : World) :
  serves (remote w) None pages s rm' ->
  (length pages < fuel)%nat ->
  In resource (concat pages) ->
  dict_get resource "created_at" = None ->
  strptime "Unknown" = inl msg ->
  realpath csv = realpath LISTING ->
  let w1 := (process_audio_details fuel w).1 in
  files (ProcessAudioFiles.process_audio_files csv w1).1 = files w1 /\
  exists e,
    last (journal (ProcessAudioFiles.process_audio_files csv w1).1)
    = Some (EvLog ERROR ("Unexpected error while processing audio files: "
                         +:+ exn_str e)).
Proof.
  intros Hs Hfuel Hin Hnone Hparse Hpath w1.
  destruct (listing_file _ _ _ _ _ Hs Hfuel) as [Hfile _].
  fold w1 in Hfile. rewrite <- Hpath in Hfile.
  assert (Hbad : Exists (fun r => malformed r = true)
                   (map detail_row (details_of pages))).
  { apply Exists_exists. exists (detail_row (detail_of resource)). split.
    - apply list_elem_of_In, in_map. unfold details_of.
      rewrite <- concat_map. by apply in_map.
    - unfold detail_of. rewrite Hnone. cbn. by rewrite Hparse. }
  destruct (process_audio_files_malformed csv HEADER _ w1 Hfile Hbad)
    as (w2 & e & evs & -> & J & HP & F).
  cbn [fst]. split.
  - unfold emit. cbn [files apply_event]. exact F.
  - exists e. unfold emit. cbn [journal]. apply last_snoc.
Qed.
End Pipelines.

(** ** The further properties on the concrete runtime *)

Section MoreWitnesses.
Import ProcessAudioFiles DeleteLastFiveAudioFiles CloudinaryFileCounts.
Local Existing Instance Demo.runtime.

Lemma wide_input :
  files Cases.world_wide !! Demo.INPUT
  = Some (["public_id"; "created"; "format"] :: Cases.wide).
Proof. vm_compute. reflexivity. Qed.

Lemma wide_to_delete :
  Forall (fun r : row => r <> []) (files_to_delete_of Cases.wide).
Proof. vm_compute. repeat constructor; discriminate. Qed.

Lemma wide_kept :
  Forall (fun r : row => (2 <= length r)%nat) (remaining_files_of Cases.wide).
Proof. vm_compute. repeat constructor. Qed.

Lemma policyA_trace_witness :
  files Cases.world_wide !! Demo.INPUT
    = Some (["public_id"; "created"; "format"] :: Cases.wide) /\
  Cases.wide <> [] /\
  Forall (fun r : row => r <> []) (files_to_delete_of Cases.wide) /\
  Forall (fun r : row => (2 <= length r)%nat) (remaining_files_of Cases.wide) /\
  (delete_audio_files Demo.INPUT Cases.world_wide).2 = inr tt /\
  journal (delete_audio_files Demo.INPUT Cases.world_wide).1
    = journal Cases.world_wide ++ warning_events Cases.wide ++
      (deletion_pass (files_to_delete_of Cases.wide) (remote Cases.world_wide)).2 ++
      save_events (map stored (remaining_files_of Cases.wide)) /\
  remote (delete_audio_files Demo.INPUT Cases.world_wide).1
    = (deletion_pass (files_to_delete_of Cases.wide) (remote Cases.world_wide)).1 /\
  ticks (delete_audio_files Demo.INPUT Cases.world_wide).1 = ticks Cases.world_wide.
Proof.
  assert (Hne : Cases.wide <> []) by discriminate.
  split; [exact wide_input|]. split; [exact Hne|].
  split; [exact wide_to_delete|]. split; [exact wide_kept|].
  exact (policyA_trace Demo.INPUT _ Cases.wide Cases.world_wide
           wide_input Hne wide_to_delete wide_kept).
Defined.

Lemma policyA_stores_two_columns_witness :
  files Cases.world_wide !! Demo.INPUT
    = Some (["public_id"; "created"; "format"] :: Cases.wide) /\
  Cases.wide <> [] /\
  Forall (fun r : row => r <> []) (files_to_delete_of Cases.wide) /\
  Forall (fun r : row => (2 <= length r)%nat) (remaining_files_of Cases.wide) /\
  files (delete_audio_files Demo.INPUT Cases.world_wide).1
  = <[realpath OUTPUT := HEADER :: map stored (remaining_files_of Cases.wide)]>
      (files Cases.world_wide).
Proof.
  assert (Hne : Cases.wide <> []) by discriminate.
  split; [exact wide_input|]. split; [exact Hne|].
  split; [exact wide_to_delete|]. split; [exact wide_kept|].
  exact (policyA_stores_two_columns Demo.INPUT _ Cases.wide Cases.world_wide
           wide_input Hne wide_to_delete wide_kept).
Defined.

Lemma policyA_blank_row_stops_pass_witness :
  files Cases.world_blank !! Demo.INPUT = Some (HEADER :: Cases.blank) /\
  files_to_delete_of Cases.blank
    = [["c"; "2024-01-03 00:00:00"]; ["d"; "2024-01-04 00:00:00"]] ++
      [] :: [["f"; "2024-01-06 00:00:00"]; ["g"; "2024-12-20 00:00:00"]] /\
  journal (delete_audio_files Demo.INPUT Cases.world_blank).1
    = journal Cases.world_blank ++ warning_events Cases.blank ++
      (deletion_pass [["c"; "2024-01-03 00:00:00"]; ["d"; "2024-01-04 00:00:00"]]
         (remote Cases.world_blank)).2 ++
      [EvLog ERROR
         "Unexpected error while deleting audio files: list index out of range"] /\
  files (delete_audio_files Demo.INPUT Cases.world_blank).1
    = files Cases.world_blank.
Proof.
  assert (Hf : files Cases.world_blank !! Demo.INPUT = Some (HEADER :: Cases.blank))
    by (vm_compute; reflexivity).
  assert (Hs : files_to_delete_of Cases.blank
               = [["c"; "2024-01-03 00:00:00"]; ["d"; "2024-01-04 00:00:00"]] ++
                 [] :: [["f"; "2024-01-06 00:00:00"]; ["g"; "2024-12-20 00:00:00"]])
    by (vm_compute; reflexivity).
  assert (Hg : Forall (fun r : row => r <> [])
                 [["c"; "2024-01-03 00:00:00"]; ["d"; "2024-01-04 00:00:00"]])
    by (repeat constructor; discriminate).
  split; [exact Hf|]. split; [exact Hs|].
  destruct (policyA_blank_row_stops_pass Demo.INPUT HEADER Cases.blank _ _
              Cases.world_blank Hf Hs Hg) as (_ & Hj & _ & Hfiles).
  split; [exact Hj | exact Hfiles].
Defined.

Lemma policyA_short_row_partial_rewrite_witness :
  files Demo.world_solo_kept !! Demo.INPUT
    = Some (HEADER :: ["a"; "2024-01-01 00:00:00"] :: ["solo"] :: drop 2 Demo.seven) /\
  remaining_files_of (["a"; "2024-01-01 00:00:00"] :: ["solo"] :: drop 2 Demo.seven)
    = [["a"; "2024-01-01 00:00:00"]] ++ ["solo"] :: [] /\
  (delete_audio_files Demo.INPUT Demo.world_solo_kept).2 = inr tt /\
  files (delete_audio_files Demo.INPUT Demo.world_solo_kept).1
    = <[realpath OUTPUT := HEADER :: map stored [["a"; "2024-01-01 00:00:00"]]]>
        (files Demo.world_solo_kept).
Proof.
  assert (Hf : files Demo.world_solo_kept !! Demo.INPUT
               = Some (HEADER :: ["a"; "2024-01-01 00:00:00"] :: ["solo"]
                       :: drop 2 Demo.seven))
    by (vm_compute; reflexivity).
  assert (Hs : remaining_files_of
                 (["a"; "2024-01-01 00:00:00"] :: ["solo"] :: drop 2 Demo.seven)
               = [["a"; "2024-01-01 00:00:00"]] ++ ["solo"] :: [])
    by (vm_compute; reflexivity).
  assert (Hg : Forall (fun r : row => (2 <= length r)%nat)
                 [["a"; "2024-01-01 00:00:00"]])
    by (repeat constructor).
  assert (Hb : (length ["solo"] < 2)%nat) by (simpl; lia).
  assert (Hd : Forall (fun r : row => r <> [])
                 (files_to_delete_of
                    (["a"; "2024-01-01 00:00:00"] :: ["solo"] :: drop 2 Demo.seven)))
    by (vm_compute; repeat constructor; discriminate).
  split; [exact Hf|]. split; [exact Hs|].
  destruct (policyA_short_row_partial_rewrite Demo.INPUT HEADER _ _ _ _
              Demo.world_solo_kept Hf Hs Hg Hb Hd) as (Hret & _ & Hfiles).
  split; [exact Hret | exact Hfiles].
Defined.

Lemma missing_input_file_witness :
  files Demo.world_empty !! realpath "nowhere.csv" = None /\
  delete_audio_files "nowhere.csv" Demo.world_empty
    = (emit (EvLog ERROR ("CSV file '" +:+ "nowhere.csv" +:+ "' does not exist."))
         Demo.world_empty, inr tt) /\
  process_audio_files "nowhere.csv" Demo.world_empty
    = (emit (EvLog ERROR ("CSV file '" +:+ "nowhere.csv" +:+ "' does not exist."))
         Demo.world_empty, inr tt).
Proof.
  assert (Hf : files Demo.world_empty !! realpath "nowhere.csv" = None)
    by (vm_compute; reflexivity).
  split; [exact Hf|].
  exact (missing_input_file "nowhere.csv" Demo.world_empty Hf).
Defined.

Lemma policyB_header_only_witness :
  files Demo.world_stale !! realpath Demo.INPUT = Some [HEADER] /\
  (length [HEADER] <= 1)%nat /\
  process_audio_files Demo.INPUT Demo.world_stale
    = (emit (EvLog ERROR "CSV file does not contain enough data to process.")
         Demo.world_stale, inr tt).
Proof.
  assert (Hf : files Demo.world_stale !! realpath Demo.INPUT = Some [HEADER])
    by (vm_compute; reflexivity).
  assert (Hl : (length [HEADER] <= 1)%nat) by (simpl; lia).
  split; [exact Hf|]. split; [exact Hl|].
  exact (policyB_header_only Demo.INPUT [HEADER] Demo.world_stale Hf Hl).
Defined.

Lemma policyA_repeated_in_place_witness :
  realpath OUTPUT = realpath OUTPUT /\
  files Cases.world_twelve !! realpath OUTPUT = Some (HEADER :: Cases.twelve) /\
  Cases.twelve <> [] /\
  Forall (fun r : row => (2 <= length r)%nat) Cases.twelve /\
  files (repeat_policyA 2 OUTPUT Cases.world_twelve) !! realpath OUTPUT
    = Some (HEADER :: map stored (take (length Cases.twelve - 5 * 2) Cases.twelve)).
Proof.
  assert (Hf : files Cases.world_twelve !! realpath OUTPUT
               = Some (HEADER :: Cases.twelve))
    by (vm_compute; reflexivity).
  assert (Hne : Cases.twelve <> []) by discriminate.
  assert (Hw : Forall (fun r : row => (2 <= length r)%nat) Cases.twelve)
    by (vm_compute; repeat constructor).
  split; [reflexivity|]. split; [exact Hf|]. split; [exact Hne|].
  split; [exact Hw|].
  exact (policyA_repeated_in_place OUTPUT HEADER Cases.twelve 1
           Cases.world_twelve eq_refl Hf Hne Hw).
Defined.
Lemma demo_clock_in_range : forall k, timedelta_days 30 <= clock k.
Proof.
  intros k. change (clock k) with (Demo.now k). unfold Demo.now.
  assert (H : timedelta_days 30 <= Datetime.to_micros 2024 12 25 12 0 0)
    by (vm_compute; discriminate).
  lia.
Qed.

Lemma policyB_run_witness :
  files Cases.world_scenario2 !! realpath Demo.INPUT
    = Some (HEADER :: Cases.scenario2) /\
  Cases.scenario2 <> [] /\
  Forall (fun r => malformed r = false) Cases.scenario2 /\
  (forall k, timedelta_days 30 <= clock k) /\
  let '(del, keep, evs, t') :=
    selection Cases.scenario2 (ticks Cases.world_scenario2) in
  (process_audio_files Demo.INPUT Cases.world_scenario2).2 = inr tt /\
  journal (process_audio_files Demo.INPUT Cases.world_scenario2).1
    = journal Cases.world_scenario2 ++ evs ++ report_events del ++ save_events keep /\
  files (process_audio_files Demo.INPUT Cases.world_scenario2).1
    = <[realpath OUTPUT := HEADER :: keep]> (files Cases.world_scenario2) /\
  remote (process_audio_files Demo.INPUT Cases.world_scenario2).1
    = remote Cases.world_scenario2 /\
  ticks (process_audio_files Demo.INPUT Cases.world_scenario2).1 = t'.
Proof.
  assert (Hf : files Cases.world_scenario2 !! realpath Demo.INPUT
               = Some (HEADER :: Cases.scenario2))
    by (vm_compute; reflexivity).
  assert (Hne : Cases.scenario2 <> []) by discriminate.
  assert (Hwf : Forall (fun r => malformed r = false) Cases.scenario2)
    by (repeat constructor; vm_compute; reflexivity).
  split; [exact Hf|]. split; [exact Hne|]. split; [exact Hwf|].
  split; [exact demo_clock_in_range|].
  exact (policyB_run Demo.INPUT HEADER Cases.scenario2 Cases.world_scenario2
           Hf Hne Hwf demo_clock_in_range).
Defined.

Lemma policyB_partition_witness :
  exists w' del keep,
    for_fold Cases.scenario2 process_one ([], []) Demo.world_empty
      = (w', inr (del, keep)) /\
    (length del + length keep = length Cases.scenario2)%nat /\
    del `sublist_of` map first_column Cases.scenario2 /\
    keep `sublist_of` map stored Cases.scenario2 /\
    del ++ map first_column keep ≡ₚ map first_column Cases.scenario2 /\
    ticks w' = (ticks Demo.world_empty +
                length (filter (fun r => allowlisted (first_column r) = false)
                          Cases.scenario2))%nat.
Proof.
  destruct (for_fold Cases.scenario2 process_one ([], []) Demo.world_empty)
    as [w' [e|[del keep]]] eqn:E.
  - exfalso.
    discriminate (eq_trans (eq_sym (f_equal snd E)) scenario2_result).
  - exists w', del, keep. split; [reflexivity|].
    exact (policyB_partition Cases.scenario2 Demo.world_empty w' del keep E).
Defined.

(** The store of [DemoListing.paged] serves its three pages. *)
Lemma paged_serves :
  serves (LS := DemoListing.paged) (remote DemoListing.world0) None
    [default [] (page_resources DemoListing.page1);
     default [] (page_resources DemoListing.page2);
     default [] (page_resources DemoListing.page3)]
    StopLastPage (remote DemoListing.world0).
Proof.
  eapply (serves_more (LS := DemoListing.paged)); [reflexivity..|].
  eapply (serves_more (LS := DemoListing.paged)); [reflexivity..|].
  eapply (serves_last (LS := DemoListing.paged)); reflexivity.
Qed.

(** The store of [DemoListing.interrupted] serves one page. *)
Lemma interrupted_serves :
  serves (LS := DemoListing.interrupted) (remote DemoListing.world0) None
    [default [] (page_resources DemoListing.page1)]
    (StopFailure FetchKeyboardInterrupt) (remote DemoListing.world0).
Proof.
  eapply (serves_more (LS := DemoListing.interrupted)); [reflexivity..|].
  eapply (serves_failure (LS := DemoListing.interrupted)); reflexivity.
Qed.

Lemma listing_returns_pages_served_witness :
  let pages := [default [] (page_resources DemoListing.page1);
                default [] (page_resources DemoListing.page2);
                default [] (page_resources DemoListing.page3)] in
  serves (LS := DemoListing.paged) (remote DemoListing.world0) None pages
    StopLastPage (remote DemoListing.world0) /\
  (length pages < 4)%nat /\
  (get_audio_files_details (LS := DemoListing.paged) 4 DemoListing.world0).2
    = inr (Some (details_of pages)) /\
  journal (get_audio_files_details (LS := DemoListing.paged) 4 DemoListing.world0).1
    = journal DemoListing.world0 ++
      FETCHING :: stop_events StopLastPage (length (details_of pages)).
Proof.
  intros pages.
  assert (Hfuel : (length pages < 4)%nat) by (simpl; lia).
  split; [exact paged_serves|]. split; [exact Hfuel|].
  destruct (listing_returns_pages_served (LS := DemoListing.paged) pages
              StopLastPage _ 4 DemoListing.world0 paged_serves Hfuel)
    as (Hret & Hj & _ & _).
  split; [exact Hret | exact Hj].
Defined.

Lemma listing_saves_what_was_fetched_witness :
  let pages := [default [] (page_resources DemoListing.page1)] in
  serves (LS := DemoListing.interrupted) (remote DemoListing.world0) None pages
    (StopFailure FetchKeyboardInterrupt) (remote DemoListing.world0) /\
  (length pages < 2)%nat /\
  (process_audio_details (LS := DemoListing.interrupted) 2 DemoListing.world0).2
    = inr (Some tt) /\
  files (process_audio_details (LS := DemoListing.interrupted) 2 DemoListing.world0).1
    = <[realpath (LISTING (LS := DemoListing.interrupted))
        := HEADER :: map detail_row (details_of pages)]>
        (files DemoListing.world0).
Proof.
  intros pages.
  assert (Hfuel : (length pages < 2)%nat) by (simpl; lia).
  split; [exact interrupted_serves|]. split; [exact Hfuel|].
  destruct (listing_saves_what_was_fetched (LS := DemoListing.interrupted) pages
              _ _ 2 DemoListing.world0 interrupted_serves Hfuel)
    as (Hret & Hfiles & _).
  split; [exact Hret | exact Hfiles].
Defined.

Lemma endless_hands_out_cursors :
  forall cursor rm, exists rm' response resources,
    list_resources (Listing := DemoListing.endless) "video" "upload" 50 cursor 60 rm
      = (rm', Page response) /\
    page_resources response = Some resources /\
    no_cursor (page_next_cursor response) = false.
Proof.
  intros cursor rm. exists rm, DemoListing.page1. eexists.
  repeat split; reflexivity.
Qed.

Lemma listing_unbounded_witness :
  (forall cursor rm, exists rm' response resources,
     list_resources (Listing := DemoListing.endless) "video" "upload" 50 cursor 60 rm
       = (rm', Page response) /\
     page_resources response = Some resources /\
     no_cursor (page_next_cursor response) = false) /\
  (get_audio_files_details (LS := DemoListing.endless) 1000 DemoListing.world0).2
    = inr None /\
  (process_audio_details (LS := DemoListing.endless) 1000 DemoListing.world0).2
    = inr None /\
  files (process_audio_details (LS := DemoListing.endless) 1000 DemoListing.world0).1
    = files DemoListing.world0.
Proof.
  split; [exact endless_hands_out_cursors|].
  exact (listing_unbounded (LS := DemoListing.endless) 1000 DemoListing.world0
           endless_hands_out_cursors).
Defined.

Lemma listing_then_policyA_witness :
  let pages := [default [] (page_resources DemoListing.page1);
                default [] (page_resources DemoListing.page2);
                default [] (page_resources DemoListing.page3)] in
  let w1 := (process_audio_details (LS := DemoListing.paged) 4 DemoListing.world0).1 in
  serves (LS := DemoListing.paged) (remote DemoListing.world0) None pages
    StopLastPage (remote DemoListing.world0) /\
  (length pages < 4)%nat /\
  details_of pages <> [] /\
  realpath "/srv/audio/AudioFileDetails.csv"
    = realpath (LISTING (LS := DemoListing.paged)) /\
  (delete_audio_files "/srv/audio/AudioFileDetails.csv" w1).2 = inr tt /\
  files (delete_audio_files "/srv/audio/AudioFileDetails.csv" w1).1 !! realpath OUTPUT
    = Some (HEADER :: map detail_row
              (take (length (details_of pages) - 5)
                 (details_of pages))).
Proof.
  intros pages w1.
  assert (Hfuel : (length pages < 4)%nat) by (simpl; lia).
  assert (Hne : details_of pages <> []) by discriminate.
  assert (Hpath : realpath "/srv/audio/AudioFileDetails.csv"
                  = realpath (LISTING (LS := DemoListing.paged)))
    by reflexivity.
  split; [exact paged_serves|]. split; [exact Hfuel|]. split; [exact Hne|].
  split; [exact Hpath|].
  destruct (listing_then_policyA (LS := DemoListing.paged) pages StopLastPage _ 4
              "/srv/audio/AudioFileDetails.csv" DemoListing.world0
              paged_serves Hfuel Hne Hpath) as (Hret & Hfiles & _).
  split; [exact Hret | exact Hfiles].
Defined.

Lemma listing_unknown_stops_policyB_witness :
  let pages := [default [] (page_resources DemoListing.page1);
                default [] (page_resources DemoListing.page2);
                default [] (page_resources DemoListing.page3)] in
  let w1 := (process_audio_details (LS := DemoListing.paged) 4 DemoListing.world0).1 in
  serves (LS := DemoListing.paged) (remote DemoListing.world0) None pages
    StopLastPage (remote DemoListing.world0) /\
  In [("public_id", "g")] (concat pages) /\
  dict_get [("public_id", "g")] "created_at" = None /\
  strptime "Unknown"
    = inl "time data 'Unknown' does not match format '%Y-%m-%d %H:%M:%S'" /\
  files (process_audio_files "/srv/audio/AudioFileDetails.csv" w1).1 = files w1.
Proof.
  intros pages w1.
  assert (Hfuel : (length pages < 4)%nat) by (simpl; lia).
  assert (Hin : In [("public_id", "g")] (concat pages))
    by (simpl; tauto).
  assert (Hnone : dict_get [("public_id", "g")] "created_at" = @None string)
    by reflexivity.
  assert (Hparse : strptime "Unknown"
            = inl "time data 'Unknown' does not match format '%Y-%m-%d %H:%M:%S'")
    by (vm_compute; reflexivity).
  split; [exact paged_serves|]. split; [exact Hin|]. split; [exact Hnone|].
  split; [exact Hparse|].
  exact (proj1 (listing_unknown_stops_policyB (LS := DemoListing.paged) pages
                  StopLastPage _ 4 "/srv/audio/AudioFileDetails.csv" _ _
                  DemoListing.world0 paged_serves Hfuel Hin Hnone Hparse eq_refl)).
Defined.
End MoreWitnesses.
